(** * Authentication core of enhancedchannelmanager (backend/auth)

    Shallow embedding of the session, reset-token and identity handling
    of [backend/auth/routes.py], of the settings cache of
    [backend/auth/settings.py], and of the token and password-policy
    helpers they import.  Rows of the relational store are records; a
    table is a list whose order is the order in which [.first()] meets
    the rows.  A failing request raises before [session.commit()], so
    its store is the unchanged input store. *)

From Stdlib Require Import String Ascii List ZArith Bool Lia.
Import ListNotations.
Open Scope string_scope.
Open Scope Z_scope.

(* ------------------------------------------------------------------ *)
(** ** Rows of the store (models.py) *)

Record User := mkUser {
  u_id : nat;
  u_username : string;
  u_email : option string;
  u_password_hash : option string;
  u_is_active : bool;
  u_auth_provider : string;
  u_updated_at : option Z;
  u_last_login_at : option Z
}.

Record UserIdentity := mkIdentity {
  i_id : nat;
  i_user_id : nat;
  i_provider : string;
  i_external_id : option string;
  i_identifier : string;
  i_last_used_at : option Z
}.

Record UserSession := mkSession {
  s_id : nat;
  s_user_id : nat;
  s_refresh_token_hash : string;
  s_ip_address : option string;
  s_user_agent : string;
  s_is_revoked : bool;
  s_expires_at : Z;
  s_last_used_at : option Z
}.

Record PasswordResetToken := mkReset {
  r_id : nat;
  r_user_id : nat;
  r_token_hash : string;
  r_expires_at : Z;
  r_used_at : option Z
}.

Record DB := mkDB {
  users : list User;
  identities : list UserIdentity;
  sessions : list UserSession;
  reset_tokens : list PasswordResetToken
}.

Definition empty_db : DB := mkDB [] [] [] [].

Definition set_users (db : DB) (us : list User) : DB :=
  mkDB us (identities db) (sessions db) (reset_tokens db).
Definition set_identities (db : DB) (is : list UserIdentity) : DB :=
  mkDB (users db) is (sessions db) (reset_tokens db).
Definition set_sessions (db : DB) (ss : list UserSession) : DB :=
  mkDB (users db) (identities db) ss (reset_tokens db).
Definition set_reset_tokens (db : DB) (rs : list PasswordResetToken) : DB :=
  mkDB (users db) (identities db) (sessions db) rs.

(** [query(...).filter(p).first()] *)
Definition first {A} (p : A -> bool) (l : list A) : option A := find p l.

(** Mutating the object returned by [.first()]: the first row satisfying
    [p] is replaced by [f] of it. *)
Fixpoint update_first {A} (p : A -> bool) (f : A -> A) (l : list A) : list A :=
  match l with
  | [] => []
  | x :: t => if p x then f x :: t else x :: update_first p f t
  end.

Definition user_by_id (db : DB) (uid : nat) : option User :=
  first (fun u => Nat.eqb (u_id u) uid) (users db).

(* ------------------------------------------------------------------ *)
(** ** Token layer as seen by the routes (auth/tokens.py) *)

(** Decoded claims; a claim absent from the payload is [None]. *)
Record Claims := mkClaims {
  c_sub : option nat;
  c_username : option string;
  c_type : option string;
  c_iat : Z;
  c_exp : Z
}.

(** The exceptions of auth/tokens.py caught by the refresh route. *)
Inductive TokenError :=
| TokenExpiredError
| TokenRevokedError
| InvalidTokenError (msg : string).

Inductive TokResult (A : Type) :=
| TOk (a : A)
| TErr (e : TokenError).
Arguments TOk {A} a.
Arguments TErr {A} e.

(** The settings the routes read through [get_auth_settings()]. *)
Definition SECONDS_PER_DAY : Z := 86400.

(** The user lookup of [login]: the local identity named [username]
    first, the legacy [User.username] column otherwise. *)
Definition local_identity_for (username : string) (i : UserIdentity) : bool :=
  String.eqb (i_provider i) "local" && String.eqb (i_identifier i) username.

Definition login_user_pred (username : string) (db : DB) : User -> bool :=
  match first (local_identity_for username) (identities db) with
  | Some i => fun u => Nat.eqb (u_id u) (i_user_id i)
  | None => fun u => String.eqb (u_username u) username
  end.

Definition resolve_login_user (username : string) (db : DB) : option User :=
  first (login_user_pred username db) (users db).

Definition has_local_identity (uid : nat) (db : DB) : bool :=
  match first (fun i => Nat.eqb (i_user_id i) uid && String.eqb (i_provider i) "local")
              (identities db) with
  | Some _ => true | None => false end.

Section Routes.

(** Raw tokens as the routes handle them: opaque values. *)
Variable Tok : Type.
(** [hash_token] (a one-way digest of the raw token). *)
Variable hash_token : Tok -> string.
(** [decode_token(token)], evaluated at the current time. *)
Variable decode_token : Tok -> Z -> TokResult Claims.
(** [verify_password(plain, hashed)] of auth/password.py. *)
Variable verify_password : string -> string -> bool.
(** [settings.jwt.refresh_token_expire_days]. *)
Variable refresh_token_expire_days : Z.

(* ------------------------------------------------------------------ *)
(** *** POST /api/auth/refresh ([refresh_tokens]) *)

Inductive RefreshOut :=
| Refreshed (new_access_token new_refresh_token : Tok)
| RefreshAuthError (msg : string).

(** The three [except] clauses of the route. *)
Definition token_error_msg (e : TokenError) : string :=
  match e with
  | TokenExpiredError => "Refresh token expired"
  | TokenRevokedError => "Refresh token revoked"
  | InvalidTokenError m => "Invalid refresh token: " ++ m
  end.

Definition live_with_hash (th : string) (s : UserSession) : bool :=
  String.eqb (s_refresh_token_hash s) th && negb (s_is_revoked s).

Definition rotate_row (new_hash : string) (now : Z) (s : UserSession) : UserSession :=
  mkSession (s_id s) (s_user_id s) new_hash (s_ip_address s) (s_user_agent s)
    (s_is_revoked s) (now + refresh_token_expire_days * SECONDS_PER_DAY) (Some now).

(** [cookie] is [get_refresh_token_from_request(request)]; [rot] is what
    [rotate_refresh_token(refresh_token)] returns (or raises) when the
    route reaches it. *)
Definition refresh_tokens (cookie : option Tok) (now : Z)
    (rot : TokResult (Tok * Tok)) (db : DB) : RefreshOut * DB :=
  match cookie with
  | None => (RefreshAuthError "No refresh token provided", db)
  | Some refresh_token =>
    match decode_token refresh_token now with
    | TErr e => (RefreshAuthError (token_error_msg e), db)
    | TOk claims =>
      match c_type claims with
      | Some t =>
        if negb (String.eqb t "refresh") then (RefreshAuthError "Invalid token type", db) else
        match c_sub claims with
        | None => (RefreshAuthError "Invalid token payload", db)
        | Some user_id =>
          let token_hash := hash_token refresh_token in
          match first (live_with_hash token_hash) (sessions db) with
          | None => (RefreshAuthError "Session not found or revoked", db)
          | Some user_session =>
            if s_expires_at user_session <? now then (RefreshAuthError "Session expired", db) else
            match user_by_id db user_id with
            | None => (RefreshAuthError "User not found or disabled", db)
            | Some user =>
              if negb (u_is_active user) then (RefreshAuthError "User not found or disabled", db) else
              match rot with
              | TErr e => (RefreshAuthError (token_error_msg e), db)
              | TOk (new_access_token, new_refresh_token) =>
                (Refreshed new_access_token new_refresh_token,
                 set_sessions db
                   (update_first (live_with_hash token_hash)
                      (rotate_row (hash_token new_refresh_token) now) (sessions db)))
              end
            end
          end
        end
      | None => (RefreshAuthError "Invalid token type", db)
      end
    end
  end.

(* ------------------------------------------------------------------ *)
(** *** POST /api/auth/logout *)

Definition with_hash (th : string) (s : UserSession) : bool :=
  String.eqb (s_refresh_token_hash s) th.

Definition revoke_row (s : UserSession) : UserSession :=
  mkSession (s_id s) (s_user_id s) (s_refresh_token_hash s) (s_ip_address s)
    (s_user_agent s) true (s_expires_at s) (s_last_used_at s).

(** Always answers "Logged out successfully"; only the store changes. *)
Definition logout (cookie : option Tok) (db : DB) : DB :=
  match cookie with
  | None => db
  | Some refresh_token =>
    let token_hash := hash_token refresh_token in
    match first (with_hash token_hash) (sessions db) with
    | None => db
    | Some _ => set_sessions db (update_first (with_hash token_hash) revoke_row (sessions db))
    end
  end.

(* ------------------------------------------------------------------ *)
(** *** POST /api/auth/login *)

Inductive LoginOut :=
| LoginOk (user : User) (access_token refresh_token : Tok)
| LoginHTTPError (status_code : Z) (detail : string).

Definition touch_identity (now : Z) (i : UserIdentity) : UserIdentity :=
  mkIdentity (i_id i) (i_user_id i) (i_provider i) (i_external_id i) (i_identifier i) (Some now).

Definition touch_login (now : Z) (u : User) : User :=
  mkUser (u_id u) (u_username u) (u_email u) (u_password_hash u) (u_is_active u)
    (u_auth_provider u) (u_updated_at u) (Some now).

(** [access_token], [refresh_token] are what [create_access_token] and
    [create_refresh_token] return; [sid] is the id the new session row gets. *)
Definition login (username password : string) (ip : option string) (user_agent : string)
    (now : Z) (access_token refresh_token : Tok) (sid : nat) (db : DB) : LoginOut * DB :=
  let identity := first (local_identity_for username) (identities db) in
  match resolve_login_user username db with
  | None => (LoginHTTPError 401 "Invalid username or password", db)
  | Some user =>
    if negb (has_local_identity (u_id user) db) && negb (String.eqb (u_auth_provider user) "local") then
      (LoginHTTPError 401 "Please use your configured authentication provider to log in", db)
    else
    if match u_password_hash user with
       | None => true
       | Some h => negb (verify_password password h)
       end
    then (LoginHTTPError 401 "Invalid username or password", db)
    else
    if negb (u_is_active user) then (LoginHTTPError 401 "User account is disabled", db)
    else
      let row := mkSession sid (u_id user) (hash_token refresh_token) ip
                   (substring 0 500 user_agent) false
                   (now + refresh_token_expire_days * SECONDS_PER_DAY) None in
      let ids' := match identity with
                  | Some _ => update_first (local_identity_for username) (touch_identity now) (identities db)
                  | None => identities db
                  end in
      (LoginOk (touch_login now user) access_token refresh_token,
       mkDB (update_first (login_user_pred username db) (touch_login now) (users db)) ids'
            (sessions db ++ [row]) (reset_tokens db))
  end.

(* ------------------------------------------------------------------ *)
(** *** Sequences of session-touching requests *)

Inductive Request :=
| ReqLogin (username password : string) (ip : option string) (user_agent : string)
    (now : Z) (access_token refresh_token : Tok) (sid : nat)
| ReqRefresh (cookie : option Tok) (now : Z) (rot : TokResult (Tok * Tok))
| ReqLogout (cookie : option Tok).

Definition step (db : DB) (q : Request) : DB :=
  match q with
  | ReqLogin un pw ip ua now acc rt sid => snd (login un pw ip ua now acc rt sid db)
  | ReqRefresh c now rot => snd (refresh_tokens c now rot db)
  | ReqLogout c => logout c db
  end.

Definition run (db : DB) (qs : list Request) : DB := fold_left step qs db.

(** Hashes of the refresh tokens a request hands out when it succeeds. *)
Definition issued_hashes (q : Request) : list string :=
  match q with
  | ReqLogin _ _ _ _ _ _ rt _ => [hash_token rt]
  | ReqRefresh _ _ (TOk (_, nr)) => [hash_token nr]
  | _ => []
  end.

End Routes.

(** Session hashes stay distinct and among the hashes handed out so far. *)
Definition session_inv (past : list string) (db : DB) : Prop :=
  NoDup (map s_refresh_token_hash (sessions db)) /\
  incl (map s_refresh_token_hash (sessions db)) past.

Arguments Refreshed {Tok} new_access_token new_refresh_token.
Arguments RefreshAuthError {Tok} msg.
Arguments LoginOk {Tok} user access_token refresh_token.
Arguments LoginHTTPError {Tok} status_code detail.
Arguments ReqLogin {Tok} username password ip user_agent now access_token refresh_token sid.
Arguments ReqRefresh {Tok} cookie now rot.
Arguments ReqLogout {Tok} cookie.

(* ------------------------------------------------------------------ *)
(** ** Password results (auth/password.py) *)

(** The rule a rejected password failed; the message of [validate_password]. *)
Inductive PasswordRuleError :=
| TooShort (min_length : Z)
| NoUppercase
| NoLowercase
| NoNumber
| NoSpecial
| CommonPassword
| ContainsUsername.

Record PasswordValidationResult := mkPVR {
  valid : bool;
  error : option PasswordRuleError
}.

(** [User.email == email] *)
Definition email_is (email : string) (u : User) : bool :=
  match u_email u with
  | Some e => String.eqb e email
  | None => false
  end.

Section PasswordRoutes.

Variable verify_password : string -> string -> bool.
Variable validate_password : string -> option string -> PasswordValidationResult.

(* ------------------------------------------------------------------ *)
(** *** POST /api/auth/forgot-password *)

Definition FORGOT_PASSWORD_MESSAGE : string :=
  "If an account with that email exists, a password reset link has been sent.".

Definition RESET_TOKEN_LIFETIME : Z := 3600.

(** [token_hash] is [hash_password(secrets.token_urlsafe(32))], [rid] the id
    the new row gets.  Email delivery swallows every exception, so the
    response is always the fixed message. *)
Definition forgot_password (email : string) (now : Z) (token_hash : string) (rid : nat)
    (db : DB) : string * DB :=
  match first (email_is email) (users db) with
  | Some user =>
    if u_is_active user && String.eqb (u_auth_provider user) "local" then
      (FORGOT_PASSWORD_MESSAGE,
       set_reset_tokens db
         (reset_tokens db ++ [mkReset rid (u_id user) token_hash (now + RESET_TOKEN_LIFETIME) None]))
    else (FORGOT_PASSWORD_MESSAGE, db)
  | None => (FORGOT_PASSWORD_MESSAGE, db)
  end.

(* ------------------------------------------------------------------ *)
(** *** POST /api/auth/reset-password *)

Inductive ResetOut :=
| ResetOk
| ResetBadRequest (detail : string)
| ResetWeakPassword (detail : option PasswordRuleError).

Definition is_unused (t : PasswordResetToken) : bool :=
  match r_used_at t with None => true | Some _ => false end.

Definition unused_matching (token : string) (t : PasswordResetToken) : bool :=
  is_unused t && verify_password token (r_token_hash t).

Definition set_password (h : string) (now : Z) (u : User) : User :=
  mkUser (u_id u) (u_username u) (u_email u) (Some h) (u_is_active u)
    (u_auth_provider u) (Some now) (u_last_login_at u).

Definition mark_used (now : Z) (t : PasswordResetToken) : PasswordResetToken :=
  mkReset (r_id t) (r_user_id t) (r_token_hash t) (r_expires_at t) (Some now).

(** [new_hash] is [hash_password(reset_request.new_password)]. *)
Definition reset_password (token new_password : string) (now : Z) (new_hash : string)
    (db : DB) : ResetOut * DB :=
  let reset_tokens_unused := filter is_unused (reset_tokens db) in
  match first (fun t => verify_password token (r_token_hash t)) reset_tokens_unused with
  | None => (ResetBadRequest "Invalid or expired reset token", db)
  | Some valid_token =>
    if r_expires_at valid_token <? now then (ResetBadRequest "Reset token has expired", db) else
    match user_by_id db (r_user_id valid_token) with
    | None => (ResetBadRequest "Invalid or expired reset token", db)
    | Some user =>
      if negb (u_is_active user) then (ResetBadRequest "Invalid or expired reset token", db) else
      let password_result := validate_password new_password (Some (u_username user)) in
      if negb (valid password_result) then (ResetWeakPassword (error password_result), db) else
      (ResetOk,
       mkDB (update_first (fun u => Nat.eqb (u_id u) (u_id user)) (set_password new_hash now) (users db))
            (identities db) (sessions db)
            (update_first (unused_matching token) (mark_used now) (reset_tokens db)))
    end
  end.

End PasswordRoutes.

(* ------------------------------------------------------------------ *)
(** ** Identity helpers and DELETE /api/auth/identities/{id} *)

Definition identities_of (uid : nat) (db : DB) : list UserIdentity :=
  filter (fun i => Nat.eqb (i_user_id i) uid) (identities db).

Definition identity_count (uid : nat) (db : DB) : nat := length (identities_of uid db).

(** [remove_user_identity(db, identity_id, user_id)]: the bulk
    [query(...).filter(...).delete()] deletes every matching row and
    returns their number. *)
Definition remove_user_identity (identity_id user_id : nat) (db : DB) : bool * DB :=
  if Nat.leb (identity_count user_id db) 1 then (false, db) else
  let target i := Nat.eqb (i_id i) identity_id && Nat.eqb (i_user_id i) user_id in
  let result := length (filter target (identities db)) in
  (Nat.ltb 0 result, set_identities db (filter (fun i => negb (target i)) (identities db))).

Fixpoint remove_first {A} (p : A -> bool) (l : list A) : list A :=
  match l with
  | [] => []
  | x :: t => if p x then t else x :: remove_first p t
  end.

Inductive UnlinkOut :=
| Unlinked
| UnlinkHTTPError (status_code : Z) (detail : string).

(** [session.delete(identity)] removes the one row [.first()] returned. *)
Definition unlink_identity (identity_id current_user_id : nat) (db : DB) : UnlinkOut * DB :=
  let target i := Nat.eqb (i_id i) identity_id && Nat.eqb (i_user_id i) current_user_id in
  match first target (identities db) with
  | None => (UnlinkHTTPError 404 "Identity not found", db)
  | Some _ =>
    if Nat.leb (identity_count current_user_id db) 1 then
      (UnlinkHTTPError 400 "Cannot unlink your last identity - you would be locked out", db)
    else (Unlinked, set_identities db (remove_first target (identities db)))
  end.

(** [add_user_identity(db, user_id, provider, identifier, external_id)]. *)
Definition add_user_identity (iid user_id : nat) (provider identifier : string)
    (external_id : option string) (db : DB) : UserIdentity * DB :=
  let identity := mkIdentity iid user_id provider external_id identifier None in
  (identity, set_identities db (identities db ++ [identity])).

(* ------------------------------------------------------------------ *)
(** ** auth/settings.py *)

Record JWTSettings := mkJWTSettings {
  secret_key : string;
  algorithm : string;
  access_token_expire_minutes : Z;
  refresh_token_expire_days : Z
}.

Record SessionSettings := mkSessionSettings {
  max_sessions_per_user : Z;
  inactivity_timeout_minutes : Z;
  extend_on_activity : bool
}.

Record LocalAuthSettings := mkLocalAuthSettings {
  local_enabled : bool;
  min_password_length : Z;
  require_uppercase : bool;
  require_lowercase : bool;
  require_number : bool;
  require_special : bool
}.

Record DispatcharrAuthSettings := mkDispatcharrAuthSettings {
  dispatcharr_enabled : bool;
  use_dispatcharr_auth : bool;
  auto_create_users : bool
}.

Record AuthSettings := mkAuthSettings {
  setup_complete : bool;
  primary_auth_mode : string;
  require_auth : bool;
  jwt : JWTSettings;
  session : SessionSettings;
  local : LocalAuthSettings;
  dispatcharr : DispatcharrAuthSettings
}.

Definition default_jwt : JWTSettings := mkJWTSettings "" "HS256" 30 7.
Definition default_session : SessionSettings := mkSessionSettings 5 0 true.
Definition default_local : LocalAuthSettings := mkLocalAuthSettings true 8 true true true false.
Definition default_dispatcharr : DispatcharrAuthSettings := mkDispatcharrAuthSettings false false true.
Definition default_auth_settings : AuthSettings :=
  mkAuthSettings false "local" true default_jwt default_session default_local default_dispatcharr.

Definition with_secret_key (s : AuthSettings) (k : string) : AuthSettings :=
  let j := jwt s in
  mkAuthSettings (setup_complete s) (primary_auth_mode s) (require_auth s)
    (mkJWTSettings k (algorithm j) (access_token_expire_minutes j) (refresh_token_expire_days j))
    (session s) (local s) (dispatcharr s).

(** Contents of [AUTH_CONFIG_FILE]: JSON that the [AuthSettings] constructor
    accepts, or anything it rejects. *)
Inductive ConfigFile :=
| ParsedSettings (s : AuthSettings)
| Unparsable.

(** Module globals and the file system seen by the module. *)
Record SettingsState := mkSettingsState {
  cached_auth_settings : option AuthSettings;
  auth_config_file : option ConfigFile
}.

(** What [CONFIG_DIR.mkdir(parents=True, exist_ok=True)] does. *)
Inductive MkdirOutcome := MkdirOk | MkdirPermissionOrOSError.

(** What [AUTH_CONFIG_FILE.write_text(...)] (or [json.dumps]) does; a
    failing write leaves [left_behind] in the file. *)
Inductive WriteOutcome :=
| WriteOk
| WritePermissionOrOSError (left_behind : option ConfigFile)
| WriteOtherError (left_behind : option ConfigFile).

Inductive PyResult (A : Type) :=
| Returns (a : A)
| Raises.
Arguments Returns {A} a.
Arguments Raises {A}.

Definition save_auth_settings (settings : AuthSettings) (mk : MkdirOutcome) (wr : WriteOutcome)
    (st : SettingsState) : PyResult bool * SettingsState :=
  match mk with
  | MkdirPermissionOrOSError =>
    (Returns false, mkSettingsState (Some settings) (auth_config_file st))
  | MkdirOk =>
    match wr with
    | WriteOk => (Returns true, mkSettingsState (Some settings) (Some (ParsedSettings settings)))
    | WritePermissionOrOSError rest => (Returns false, mkSettingsState (Some settings) rest)
    | WriteOtherError rest => (Raises, mkSettingsState (cached_auth_settings st) rest)
    end
  end.

(** [load_auth_settings()]; [new_key] is [_generate_secret_key()] and
    [mk], [wr] the outcome of the [save_auth_settings] it may call. *)
Definition load_auth_settings (new_key : string) (mk : MkdirOutcome) (wr : WriteOutcome)
    (st : SettingsState) : PyResult AuthSettings * SettingsState :=
  let defaults := with_secret_key default_auth_settings new_key in
  (* the code after the [if AUTH_CONFIG_FILE.exists()] block *)
  let fresh (file : option ConfigFile) :=
    match save_auth_settings defaults mk wr (mkSettingsState (Some defaults) file) with
    | (Returns _, st') => (Returns defaults, st')
    | (Raises, st') => (Raises, st')
    end in
  match cached_auth_settings st with
  | Some c => (Returns c, st)
  | None =>
    match auth_config_file st with
    | Some (ParsedSettings s) =>
      if String.eqb (secret_key (jwt s)) "" then
        let s' := with_secret_key s new_key in
        match save_auth_settings s' mk wr (mkSettingsState (Some s') (auth_config_file st)) with
        | (Returns _, st') => (Returns s', st')
        | (Raises, st') => fresh (auth_config_file st')  (* caught by [except Exception] *)
        end
      else (Returns s, mkSettingsState (Some s) (auth_config_file st))
    | _ => fresh (auth_config_file st)
    end
  end.

Definition get_auth_settings := load_auth_settings.

(* ------------------------------------------------------------------ *)
(** ** Token service (auth/tokens.py) *)

(** A bearer token: three well-formed segments, or anything else. *)
Inductive JWT :=
| Signed (header : string) (payload : Claims) (signature : string)
| Malformed (raw : string).

Section TokenService.

(** The keyed HMAC-SHA256 of a payload under the signing secret. *)
Variable hmac_sha256 : string -> Claims -> string.

(** Modelled from the spec: auth/tokens.py ([create_access_token],
    [create_refresh_token], [decode_token]) is not in the sources.
    Access token claims are [sub], [username], [iat], [exp]; refresh token
    claims are [sub], [type="refresh"], [iat], [exp]; times in seconds,
    lifetimes in configurable minutes and days. *)
Definition create_access_token (secret : string) (expire_minutes : Z)
    (user_id : nat) (username : string) (now : Z) : JWT :=
  let claims := mkClaims (Some user_id) (Some username) None now (now + expire_minutes * 60) in
  Signed "HS256" claims (hmac_sha256 secret claims).

Definition create_refresh_token (secret : string) (expire_days : Z)
    (user_id : nat) (now : Z) : JWT :=
  let claims := mkClaims (Some user_id) None (Some "refresh") now (now + expire_days * SECONDS_PER_DAY) in
  Signed "HS256" claims (hmac_sha256 secret claims).

(** Modelled from the spec: [decode_token] fails with [TokenExpiredError]
    once [exp] has passed and with [InvalidTokenError] for a malformed
    token, a foreign algorithm or a bad signature. *)
Definition decode_token (secret : string) (token : JWT) (now : Z) : TokResult Claims :=
  match token with
  | Malformed _ => TErr (InvalidTokenError "Not enough segments")
  | Signed header claims signature =>
    if negb (String.eqb header "HS256") then TErr (InvalidTokenError "The specified alg value is not allowed") else
    if negb (String.eqb signature (hmac_sha256 secret claims)) then
      TErr (InvalidTokenError "Signature verification failed") else
    if c_exp claims <? now then TErr TokenExpiredError else
    TOk claims
  end.

End TokenService.

(* ------------------------------------------------------------------ *)
(** ** Password policy (auth/password.py) *)

Definition ascii_between (lo hi : nat) (c : ascii) : bool :=
  Nat.leb lo (nat_of_ascii c) && Nat.leb (nat_of_ascii c) hi.

Definition is_upper (c : ascii) : bool := ascii_between 65 90 c.
Definition is_lower (c : ascii) : bool := ascii_between 97 122 c.
Definition is_digit (c : ascii) : bool := ascii_between 48 57 c.
Definition is_special (c : ascii) : bool := negb (is_upper c || is_lower c || is_digit c).

Fixpoint any_char (f : ascii -> bool) (s : string) : bool :=
  match s with
  | EmptyString => false
  | String c t => f c || any_char f t
  end.

Definition lower_char (c : ascii) : ascii :=
  if is_upper c then ascii_of_nat (nat_of_ascii c + 32) else c.

Fixpoint lower_string (s : string) : string :=
  match s with
  | EmptyString => EmptyString
  | String c t => String (lower_char c) (lower_string t)
  end.

(** [needle in hay] on strings. *)
Fixpoint contains (needle hay : string) : bool :=
  if prefix needle hay then true else
  match hay with
  | EmptyString => false
  | String _ t => contains needle t
  end.

Definition invalid (e : PasswordRuleError) : PasswordValidationResult := mkPVR false (Some e).
Definition valid_result : PasswordValidationResult := mkPVR true None.

(** Modelled from the spec: auth/password.py ([validate_password]) is not
    in the sources.  Rules in the spec's order: minimum length, an
    uppercase letter, a lowercase letter, a digit, optionally a special
    character (each switched by [LocalAuthSettings]), not in the
    common-password deny-list (case-insensitive), not equal to nor
    containing the username (case-insensitive); the first failing rule is
    the one error reported. *)
Definition validate_password (cfg : LocalAuthSettings) (common_passwords : list string)
    (password : string) (username : option string) : PasswordValidationResult :=
  if Z.of_nat (String.length password) <? min_password_length cfg then
    invalid (TooShort (min_password_length cfg)) else
  if require_uppercase cfg && negb (any_char is_upper password) then invalid NoUppercase else
  if require_lowercase cfg && negb (any_char is_lower password) then invalid NoLowercase else
  if require_number cfg && negb (any_char is_digit password) then invalid NoNumber else
  if require_special cfg && negb (any_char is_special password) then invalid NoSpecial else
  if existsb (fun c => String.eqb (lower_string c) (lower_string password)) common_passwords then
    invalid CommonPassword else
  match username with
  | Some u => if contains (lower_string u) (lower_string password) then invalid ContainsUsername
              else valid_result
  | None => valid_result
  end.

(** The rules as a list of (passes, error), in order. *)
Definition password_rules (cfg : LocalAuthSettings) (common_passwords : list string)
    (password : string) (username : option string) : list (bool * PasswordRuleError) :=
  [ (min_password_length cfg <=? Z.of_nat (String.length password), TooShort (min_password_length cfg));
    (negb (require_uppercase cfg) || any_char is_upper password, NoUppercase);
    (negb (require_lowercase cfg) || any_char is_lower password, NoLowercase);
    (negb (require_number cfg) || any_char is_digit password, NoNumber);
    (negb (require_special cfg) || any_char is_special password, NoSpecial);
    (negb (existsb (fun c => String.eqb (lower_string c) (lower_string password)) common_passwords),
       CommonPassword);
    (match username with
     | Some u => negb (contains (lower_string u) (lower_string password))
     | None => true end, ContainsUsername) ].

Fixpoint first_failing (rs : list (bool * PasswordRuleError)) : option PasswordRuleError :=
  match rs with
  | [] => None
  | (ok, e) :: t => if ok then first_failing t else Some e
  end.

(* ------------------------------------------------------------------ *)
(** ** Further routes of backend/auth/routes.py

    The [User] record holds the columns the routes above read; the routes
    below also write [is_admin] and [display_name], which it does not
    hold, and those writes are left out.  [current_user] is the row
    [get_current_user] (auth/dependencies.py) hands the route. *)

(** What a route answers: a value, an [HTTPException], the 422 of a weak
    password (its detail is [password_result.error]), or an exception it
    does not catch (a 500). *)
Inductive RouteOut (A : Type) :=
| ROk (a : A)
| RHTTPError (status_code : Z) (detail : string)
| RWeakPassword (detail : option PasswordRuleError)
| RRaises.
Arguments ROk {A} a.
Arguments RHTTPError {A} status_code detail.
Arguments RWeakPassword {A} detail.
Arguments RRaises {A}.

(** [session.query(User).count()] *)
Definition user_count (db : DB) : nat := length (users db).

(** GET /api/auth/setup-required *)
Definition check_setup_required (db : DB) : bool := Nat.eqb (user_count db) 0.

(** [not user.password_hash or not verify_password(plain, user.password_hash)]
    negated: a hash that is present, non-empty and verifies. *)
Definition password_hash_ok (verify_password : string -> string -> bool)
    (plain : string) (h : option string) : bool :=
  match h with
  | None => false
  | Some h => negb (String.eqb h "") && verify_password plain h
  end.


Definition set_hash_only (h : string) (u : User) : User :=
  mkUser (u_id u) (u_username u) (u_email u) (Some h) (u_is_active u)
    (u_auth_provider u) (u_updated_at u) (u_last_login_at u).

Definition id_is (uid : nat) (u : User) : bool := Nat.eqb (u_id u) uid.

(** Sessions of [uid] with [is_revoked == False] (expired ones included). *)
Definition active_session_count (uid : nat) (db : DB) : nat :=
  length (filter (fun s => Nat.eqb (s_user_id s) uid && negb (s_is_revoked s)) (sessions db)).

(** GET /api/auth/admin/users/{user_id}: the user and its [session_count]. *)
Definition get_user (user_id : nat) (db : DB) : RouteOut (User * nat) :=
  match user_by_id db user_id with
  | None => RHTTPError 404 "User not found"
  | Some user => ROk (user, active_session_count user_id db)
  end.


(** PUT /api/auth/admin/users/{user_id}, after [require_admin] let
    [admin_user_id] through. *)
Definition set_admin_fields (is_active : option bool) (email : option string) (now : Z)
    (u : User) : User :=
  mkUser (u_id u) (u_username u)
    (match email with Some e => Some e | None => u_email u end)
    (u_password_hash u)
    (match is_active with Some b => b | None => u_is_active u end)
    (u_auth_provider u) (Some now) (u_last_login_at u).

Definition update_user (admin_user_id user_id : nat) (is_admin is_active : option bool)
    (email : option string) (now : Z) (db : DB) : RouteOut User * DB :=
  match user_by_id db user_id with
  | None => (RHTTPError 404 "User not found", db)
  | Some user =>
    let self := Nat.eqb (u_id user) admin_user_id in
    if match is_admin with Some false => self | _ => false end then
      (RHTTPError 400 "Cannot remove your own admin status", db) else
    if match is_active with Some false => self | _ => false end then
      (RHTTPError 400 "Cannot deactivate your own account", db) else
    (ROk (set_admin_fields is_active email now user),
     set_users db (update_first (id_is (u_id user)) (set_admin_fields is_active email now) (users db)))
  end.

Section AccountRoutes.

Variable verify_password : string -> string -> bool.
Variable hash_password : string -> string.
Variable validate_password : string -> option string -> PasswordValidationResult.
(** What the ORM does to the identity rows of a user it deletes (the
    relationship is declared in models.py). *)
Variable orm_delete_user_identities : nat -> list UserIdentity -> list UserIdentity.

(** POST /api/auth/setup; [uid], [iid] are the ids the flush gives the new
    rows and [created] the [updated_at] the new row gets by default. *)
Definition initial_setup (username email password : string) (uid iid : nat)
    (created : option Z) (db : DB) : RouteOut User * DB :=
  if Nat.ltb 0 (user_count db) then
    (RHTTPError 403 "Setup already completed. Users already exist.", db) else
  let password_result := validate_password password (Some username) in
  if negb (valid password_result) then (RWeakPassword (error password_result), db) else
  let user := mkUser uid username (Some email) (Some (hash_password password)) true "local"
                created None in
  let identity := mkIdentity iid uid "local" None username None in
  (ROk user, mkDB (users db ++ [user]) (identities db ++ [identity]) (sessions db) (reset_tokens db)).

(** POST /api/auth/change-password *)
Definition change_password (current_user : User) (current_password new_password : string)
    (now : Z) (db : DB) : RouteOut unit * DB :=
  if negb (password_hash_ok verify_password current_password (u_password_hash current_user)) then
    (RHTTPError 401 "Current password is incorrect", db) else
  let password_result := validate_password new_password (Some (u_username current_user)) in
  if negb (valid password_result) then (RWeakPassword (error password_result), db) else
  (ROk tt, set_users db (update_first (id_is (u_id current_user))
                           (set_password (hash_password new_password) now) (users db))).

(** DELETE /api/auth/admin/users/{user_id}, after [require_admin]. *)
Definition delete_user (admin_user_id user_id : nat) (db : DB) : RouteOut string * DB :=
  match user_by_id db user_id with
  | None => (RHTTPError 404 "User not found", db)
  | Some user =>
    if Nat.eqb (u_id user) admin_user_id then (RHTTPError 400 "Cannot delete your own account", db) else
    (ROk ("User '" ++ u_username user ++ "' deleted"),
     mkDB (filter (fun u => negb (id_is (u_id user) u)) (users db))
          (orm_delete_user_identities (u_id user) (identities db))
          (filter (fun s => negb (Nat.eqb (s_user_id s) user_id)) (sessions db))
          (filter (fun t => negb (Nat.eqb (r_user_id t) user_id)) (reset_tokens db)))
  end.

(** How [DispatcharrClient.authenticate] ends. *)
Inductive DispatcharrAuth :=
| DAuthOk (user_id username : string)
| DAuthFailed (msg : string)            (* DispatcharrAuthenticationError *)
| DAuthUnreachable                      (* DispatcharrConnectionError, TimeoutError *)
| DAuthUnexpected.                      (* any other exception: not caught *)

Definition dispatcharr_identity_for (external_id : string) (i : UserIdentity) : bool :=
  String.eqb (i_provider i) "dispatcharr" &&
  match i_external_id i with Some e => String.eqb e external_id | None => false end.

(** POST /api/auth/identities/link; [dispatcharr_on] is
    [get_auth_settings().dispatcharr.enabled] and [iid] the id the flush
    gives the new identity. *)
Definition link_identity (provider_raw username password : string) (current_user : User)
    (dispatcharr_on : bool) (auth : DispatcharrAuth) (iid : nat) (db : DB)
    : RouteOut UserIdentity * DB :=
  let provider := lower_string provider_raw in
  let uid := u_id current_user in
  match first (fun i => Nat.eqb (i_user_id i) uid && String.eqb (i_provider i) provider)
              (identities db) with
  | Some _ => (RHTTPError 409 ("You already have a " ++ provider ++ " identity linked"), db)
  | None =>
    if String.eqb provider "local" then
      if String.eqb password "" then (RHTTPError 400 "Password is required for local linking", db) else
      match first (local_identity_for username) (identities db) with
      | Some _ => (RHTTPError 409 "This local username is already linked to another account", db)
      | None =>
        let db1 := set_users db (update_first (id_is uid) (set_hash_only (hash_password password))
                                   (users db)) in
        let (identity, db2) := add_user_identity iid uid "local" username None db1 in
        (ROk identity, db2)
      end
    else if String.eqb provider "dispatcharr" then
      if negb dispatcharr_on then (RHTTPError 404 "Dispatcharr authentication is not enabled", db) else
      match auth with
      | DAuthFailed e => (RHTTPError 401 ("Dispatcharr authentication failed: " ++ e), db)
      | DAuthUnreachable => (RHTTPError 503 "Cannot connect to Dispatcharr", db)
      | DAuthUnexpected => (RRaises, db)
      | DAuthOk ext uname =>
        match first (dispatcharr_identity_for ext) (identities db) with
        | Some _ => (RHTTPError 409 "This Dispatcharr account is already linked to another user", db)
        | None =>
          let (identity, db2) := add_user_identity iid uid "dispatcharr" uname (Some ext) db in
          (ROk identity, db2)
        end
      end
    else (RHTTPError 400 ("Linking not supported for provider: " ++ provider), db)
  end.

End AccountRoutes.

(* ------------------------------------------------------------------ *)
(** ** Settings seen through the routes

    [get_auth_settings()] hands out the cached object itself, so a route
    that assigns to a field of it changes the cache at once, before and
    whatever [save_auth_settings] then does. *)

Definition with_setup_complete (s : AuthSettings) (b : bool) : AuthSettings :=
  mkAuthSettings b (primary_auth_mode s) (require_auth s) (jwt s) (session s) (local s) (dispatcharr s).

(** [AuthSettings.get_enabled_providers()] *)
Definition get_enabled_providers (s : AuthSettings) : list string :=
  (if local_enabled (local s) then ["local"] else []) ++
  (if dispatcharr_enabled (dispatcharr s) then ["dispatcharr"] else []).


(** An outcome of [load_auth_settings]: the key it would generate and the
    outcome of the save it may call. *)
Record LoadEnv := mkLoadEnv { le_key : string; le_mkdir : MkdirOutcome; le_write : WriteOutcome }.

Definition get_auth_settings_in (e : LoadEnv) (st : SettingsState) : PyResult AuthSettings * SettingsState :=
  get_auth_settings (le_key e) (le_mkdir e) (le_write e) st.

(** [get_jwt_secret_key()]; [e] is the environment of its
    [get_auth_settings()], [key2], [mk2], [wr2] those of its own save. *)
Definition get_jwt_secret_key (e : LoadEnv) (key2 : string) (mk2 : MkdirOutcome) (wr2 : WriteOutcome)
    (st : SettingsState) : PyResult string * SettingsState :=
  match get_auth_settings_in e st with
  | (Raises, st1) => (Raises, st1)
  | (Returns settings, st1) =>
    if String.eqb (secret_key (jwt settings)) "" then
      let s' := with_secret_key settings key2 in
      match save_auth_settings s' mk2 wr2 (mkSettingsState (Some s') (auth_config_file st1)) with
      | (Returns _, st2) => (Returns (secret_key (jwt s')), st2)
      | (Raises, st2) => (Raises, st2)
      end
    else (Returns (secret_key (jwt settings)), st1)
  end.

(** [mark_setup_complete()] *)
Definition mark_setup_complete (e : LoadEnv) (mk2 : MkdirOutcome) (wr2 : WriteOutcome)
    (st : SettingsState) : PyResult unit * SettingsState :=
  match get_auth_settings_in e st with
  | (Raises, st1) => (Raises, st1)
  | (Returns settings, st1) =>
    let s' := with_setup_complete settings true in
    match save_auth_settings s' mk2 wr2 (mkSettingsState (Some s') (auth_config_file st1)) with
    | (Returns _, st2) => (Returns tt, st2)
    | (Raises, st2) => (Raises, st2)
    end
  end.

Record AuthSettingsUpdateRequest := mkAuthSettingsUpdateRequest {
  req_require_auth : option bool;
  req_primary_auth_mode : option string;
  req_local_enabled : option bool;
  req_local_min_password_length : option Z;
  req_dispatcharr_enabled : option bool;
  req_dispatcharr_auto_create_users : option bool
}.

Definition or_keep {A} (o : option A) (a : A) : A := match o with Some b => b | None => a end.

(** The assignments of [update_admin_auth_settings], in place. *)
Definition apply_settings_update (r : AuthSettingsUpdateRequest) (s : AuthSettings) : AuthSettings :=
  let l := local s in
  let d := dispatcharr s in
  mkAuthSettings (setup_complete s)
    (or_keep (req_primary_auth_mode r) (primary_auth_mode s))
    (or_keep (req_require_auth r) (require_auth s))
    (jwt s) (session s)
    (mkLocalAuthSettings (or_keep (req_local_enabled r) (local_enabled l))
       (or_keep (req_local_min_password_length r) (min_password_length l))
       (require_uppercase l) (require_lowercase l) (require_number l) (require_special l))
    (mkDispatcharrAuthSettings (or_keep (req_dispatcharr_enabled r) (dispatcharr_enabled d))
       (use_dispatcharr_auth d)
       (or_keep (req_dispatcharr_auto_create_users r) (auto_create_users d))).

(** PUT /api/auth/admin/settings, after [require_admin]: the result of
    [save_auth_settings] is not looked at. *)
Definition update_admin_auth_settings (r : AuthSettingsUpdateRequest) (e : LoadEnv)
    (mk2 : MkdirOutcome) (wr2 : WriteOutcome) (st : SettingsState) : PyResult string * SettingsState :=
  match get_auth_settings_in e st with
  | (Raises, st1) => (Raises, st1)
  | (Returns settings, st1) =>
    let s' := apply_settings_update r settings in
    match save_auth_settings s' mk2 wr2 (mkSettingsState (Some s') (auth_config_file st1)) with
    | (Returns _, st2) => (Returns "Settings updated", st2)
    | (Raises, st2) => (Raises, st2)
    end
  end.

Record AuthStatus := mkAuthStatus {
  st_setup_complete : bool;
  st_require_auth : bool;
  st_enabled_providers : list string;
  st_primary_auth_mode : string;
  st_smtp_configured : bool
}.

Definition status_of (sc : bool) (s : AuthSettings) (smtp : bool) : AuthStatus :=
  mkAuthStatus sc (require_auth s) (get_enabled_providers s) (primary_auth_mode s) smtp.

(** GET /api/auth/status; [smtp] is [get_settings().is_smtp_configured()]. *)
Definition get_auth_status (e : LoadEnv) (mk2 : MkdirOutcome) (wr2 : WriteOutcome) (smtp : bool)
    (db : DB) (st : SettingsState) : PyResult AuthStatus * SettingsState :=
  match get_auth_settings_in e st with
  | (Raises, st1) => (Raises, st1)
  | (Returns auth_settings, st1) =>
    if setup_complete auth_settings then (Returns (status_of true auth_settings smtp), st1) else
    if Nat.ltb 0 (user_count db) then
      let s' := with_setup_complete auth_settings true in
      match save_auth_settings s' mk2 wr2 (mkSettingsState (Some s') (auth_config_file st1)) with
      | (Returns _, st2) => (Returns (status_of true s' smtp), st2)
      | (Raises, st2) => (Raises, st2)
      end
    else (Returns (status_of false auth_settings smtp), st1)
  end.

(* ------------------------------------------------------------------ *)
(** ** Keys of the tables, as the routes above keep or break them *)



(** User ids are distinct (the primary key). *)
Definition user_ids_unique (db : DB) : Prop := NoDup (map u_id (users db)).

Definition identity_user_provider (i : UserIdentity) : nat * string := (i_user_id i, i_provider i).

Definition local_identifiers (db : DB) : list string :=
  map i_identifier (filter (fun i => String.eqb (i_provider i) "local") (identities db)).

Definition dispatcharr_external_ids (db : DB) : list string :=
  flat_map (fun i => if String.eqb (i_provider i) "dispatcharr" then
                       match i_external_id i with Some e => [e] | None => [] end
                     else [])
           (identities db).

(** One identity per user and provider, one local identity per
    identifier, one dispatcharr identity per Dispatcharr account. *)
Definition identities_well_keyed (db : DB) : Prop :=
  NoDup (map identity_user_provider (identities db)) /\ NoDup (local_identifiers db) /\
  NoDup (dispatcharr_external_ids db).

(* ================================================================== *)
(** * Properties *)

(** ** Lists updated in place *)

Open Scope list_scope.

Lemma nodup_app_disjoint {A} (l l' : list A) (a : A) :
  NoDup (l ++ l') -> In a l -> ~ In a l'.
Proof.
  induction l as [|x t IH]; simpl; intros Hnd Hin; [contradiction|].
  inversion Hnd as [|? ? Hx Ht]; subst.
  destruct Hin as [<-|Hin].
  - intro H; apply Hx, in_or_app; right; exact H.
  - exact (IH Ht Hin).
Qed.

Lemma map_update_first_same {A B} (g : A -> B) (p : A -> bool) (f : A -> A) (l : list A) :
  (forall x, g (f x) = g x) -> map g (update_first p f l) = map g l.
Proof.
  intros Hg; induction l as [|x t IH]; simpl; [reflexivity|].
  destruct (p x); simpl; rewrite ?Hg, ?IH; reflexivity.
Qed.

Lemma in_map_update_first {A B} (g : A -> B) (p : A -> bool) (f : A -> A) (c : B) (l : list A) y :
  (forall x, g (f x) = c) -> In y (map g (update_first p f l)) -> y = c \/ In y (map g l).
Proof.
  intros Hg; induction l as [|x t IH]; simpl; [tauto|].
  destruct (p x); simpl.
  - rewrite Hg; intros [<-|H]; auto.
  - intros [<-|H]; auto. destruct (IH H); auto.
Qed.

Lemma nodup_update_first {A B} (g : A -> B) (p : A -> bool) (f : A -> A) (c : B) (l : list A) :
  (forall x, g (f x) = c) -> NoDup (map g l) -> ~ In c (map g l) ->
  NoDup (map g (update_first p f l)).
Proof.
  intros Hg; induction l as [|x t IH]; simpl; intros Hnd Hc; [constructor|].
  inversion Hnd as [|? ? Hx Ht]; subst.
  destruct (p x); simpl.
  - rewrite Hg. constructor; [intro H; apply Hc; right; exact H | exact Ht].
  - constructor.
    + intro H. destruct (in_map_update_first g p f c t (g x) Hg H) as [E|E].
      * apply Hc; left; exact E.
      * exact (Hx E).
    + apply IH; [exact Ht | intro H; apply Hc; right; exact H].
Qed.

(** With distinct keys, updating the first [p]-row rewrites the only row
    whose key is [h]. *)
Lemma update_first_drops_key {A B} (g : A -> B) (p : A -> bool) (f : A -> A) (h : B) (l : list A) x :
  NoDup (map g l) -> (forall y, p y = true -> g y = h) -> find p l = Some x ->
  (forall y, g (f y) <> h) -> ~ In h (map g (update_first p f l)).
Proof.
  intros Hnd Hp Hf Hfh; induction l as [|a t IH]; simpl in *; [discriminate|].
  inversion Hnd as [|? ? Ha Ht]; subst.
  destruct (p a) eqn:Epa; simpl.
  - rewrite (Hp a Epa) in Ha. intros [E|E]; [exact (Hfh a E) | exact (Ha E)].
  - intros [E|E].
    + apply Ha. rewrite E.
      destruct (find_some p t Hf) as [Hin Hpx].
      rewrite <- (Hp x Hpx). apply in_map; exact Hin.
    + exact (IH Ht Hf E).
Qed.

Lemma find_none_not_in {A B} (g : A -> B) (p : A -> bool) (h : B) (l : list A) :
  (forall y, p y = true -> g y = h) -> ~ In h (map g l) -> find p l = None.
Proof.
  intros Hp; induction l as [|a t IH]; simpl; intros Hn; [reflexivity|].
  destruct (p a) eqn:E.
  - exfalso; apply Hn; left; exact (Hp a E).
  - apply IH; intro H; apply Hn; right; exact H.
Qed.

(** ** The session store under login, refresh and logout *)

Section SessionStore.

Variable Tok : Type.
Variable hash_token : Tok -> string.
Variable decode_token : Tok -> Z -> TokResult Claims.
Variable verify_password : string -> string -> bool.
Variable days : Z.

Local Abbreviation refresh := (refresh_tokens Tok hash_token decode_token days).
Local Abbreviation step' := (step Tok hash_token decode_token verify_password days).
Local Abbreviation run' := (run Tok hash_token decode_token verify_password days).
Local Abbreviation issued := (issued_hashes Tok hash_token).
Local Abbreviation hashes db := (map s_refresh_token_hash (sessions db)).

Ltac split_matches :=
  repeat match goal with
         | |- context [match ?x with _ => _ end] => destruct x eqn:?
         end.

Lemma refresh_cases c now rot db :
  (exists msg, refresh c now rot db = (RefreshAuthError msg, db)) \/
  (exists r na nr us, c = Some r /\ rot = TOk (na, nr) /\
     find (live_with_hash (hash_token r)) (sessions db) = Some us /\
     refresh c now rot db =
       (Refreshed na nr,
        set_sessions db (update_first (live_with_hash (hash_token r))
                           (rotate_row days (hash_token nr) now) (sessions db)))).
Proof.
  unfold refresh_tokens. split_matches; try (left; eexists; reflexivity).
  right. do 4 eexists. repeat split; eassumption || reflexivity.
Qed.

Lemma login_hashes un pw ip ua now acc rt sid db :
  hashes (snd (login Tok hash_token verify_password days un pw ip ua now acc rt sid db)) = hashes db \/
  hashes (snd (login Tok hash_token verify_password days un pw ip ua now acc rt sid db))
    = hashes db ++ [hash_token rt].
Proof.
  unfold login. split_matches; simpl; auto; right; rewrite map_app; reflexivity.
Qed.

Lemma logout_hashes c db : hashes (logout Tok hash_token c db) = hashes db.
Proof.
  unfold logout. split_matches; simpl; auto.
  apply map_update_first_same; reflexivity.
Qed.

Lemma rotate_row_hash h now s : s_refresh_token_hash (rotate_row days h now s) = h.
Proof. reflexivity. Qed.

Lemma live_with_hash_key h s : live_with_hash h s = true -> s_refresh_token_hash s = h.
Proof.
  unfold live_with_hash; intros H; apply andb_prop in H as [H _].
  apply String.eqb_eq; exact H.
Qed.

Lemma step_inv past db q :
  session_inv past db -> NoDup (past ++ issued q) -> session_inv (past ++ issued q) (step' db q).
Proof.
  intros [Hnd Hincl] Hfresh; unfold session_inv.
  destruct q as [un pw ip ua now acc rt sid | c now rot | c]; cbn [step issued_hashes] in *.
  - destruct (login_hashes un pw ip ua now acc rt sid db) as [E|E]; rewrite E; split.
    + exact Hnd.
    + intros y Hy; apply in_or_app; left; exact (Hincl y Hy).
    + apply NoDup_app; [exact Hnd | repeat constructor; simpl; tauto |].
      intros a Ha [<-|[]]. apply (nodup_app_disjoint _ _ _ Hfresh (Hincl _ Ha)); left; reflexivity.
    + intros y Hy; apply in_app_or in Hy as [Hy|Hy]; apply in_or_app; [left; exact (Hincl y Hy) | right; exact Hy].
  - destruct (refresh_cases c now rot db) as [[msg E]|[r [na [nr [us [Ec [Er [Ef E]]]]]]]];
      rewrite E; simpl.
    + split; [exact Hnd | intros y Hy; apply in_or_app; left; exact (Hincl y Hy)].
    + subst rot; cbn [issued_hashes] in *.
      assert (Hn : ~ In (hash_token nr) (hashes db)).
      { intro H. apply (nodup_app_disjoint _ _ _ Hfresh (Hincl _ H)); left; reflexivity. }
      split.
      * apply (nodup_update_first _ _ _ (hash_token nr)); [intro; reflexivity | exact Hnd | exact Hn].
      * intros y Hy. apply (in_map_update_first _ _ _ (hash_token nr)) in Hy; [|intro; reflexivity].
        apply in_or_app. destruct Hy as [->|Hy]; [right; left; reflexivity | left; exact (Hincl y Hy)].
  - rewrite app_nil_r. rewrite logout_hashes. split; assumption.
Qed.

Lemma run_inv qs : forall past db,
  session_inv past db -> NoDup (past ++ flat_map issued qs) ->
  session_inv (past ++ flat_map issued qs) (run' db qs).
Proof.
  induction qs as [|q qs IH]; simpl; intros past db Hi Hnd.
  - rewrite app_nil_r; exact Hi.
  - rewrite app_assoc. apply IH.
    + apply step_inv; [exact Hi|].
      apply NoDup_app_remove_r with (l' := flat_map issued qs).
      rewrite <- app_assoc; exact Hnd.
    + rewrite <- app_assoc; exact Hnd.
Qed.

(** A hash absent from the store stays absent while every request hands
    out other hashes. *)
Lemma step_absent h db q :
  ~ In h (hashes db) -> ~ In h (issued q) -> ~ In h (hashes (step' db q)).
Proof.
  intros Hdb Hq.
  destruct q as [un pw ip ua now acc rt sid | c now rot | c]; cbn [step issued_hashes] in *.
  - destruct (login_hashes un pw ip ua now acc rt sid db) as [E|E]; rewrite E; [exact Hdb|].
    intros H; apply in_app_or in H as [H|[H|[]]]; [exact (Hdb H) | apply Hq; left; exact H].
  - destruct (refresh_cases c now rot db) as [[msg E]|[r [na [nr [us [Ec [Er [Ef E]]]]]]]];
      rewrite E; simpl; [exact Hdb|].
    subst rot; cbn [issued_hashes] in Hq. intros H.
    apply (in_map_update_first _ _ _ (hash_token nr)) in H as [H|H]; [|exact (Hdb H)|intro; reflexivity].
    apply Hq; left; symmetry; exact H.
  - rewrite logout_hashes; exact Hdb.
Qed.

Lemma run_absent h qs : forall db,
  ~ In h (hashes db) -> ~ In h (flat_map issued qs) -> ~ In h (hashes (run' db qs)).
Proof.
  induction qs as [|q qs IH]; simpl; intros db Hdb Hqs; [exact Hdb|].
  apply IH.
  - apply step_absent; [exact Hdb | intro H; apply Hqs, in_or_app; left; exact H].
  - intro H; apply Hqs, in_or_app; right; exact H.
Qed.

Lemma refresh_absent_fails r now rot db :
  ~ In (hash_token r) (hashes db) ->
  exists msg, refresh (Some r) now rot db = (RefreshAuthError msg, db) /\
    (forall c, decode_token r now = TOk c -> c_type c = Some "refresh" -> c_sub c <> None ->
               msg = "Session not found or revoked").
Proof.
  intros Hn.
  assert (Hf : find (live_with_hash (hash_token r)) (sessions db) = None)
    by (apply (find_none_not_in s_refresh_token_hash _ (hash_token r));
        [apply live_with_hash_key | exact Hn]).
  unfold refresh_tokens.
  destruct (decode_token r now) as [c|e] eqn:Ed;
    [| eexists; split; [reflexivity | intros c' E'; discriminate]].
  destruct (c_type c) as [t|] eqn:Et;
    [| eexists; split; [reflexivity | intros c' E'; injection E' as <-; congruence]].
  destruct (negb (String.eqb t "refresh")) eqn:Etr.
  - eexists; split; [reflexivity|]. intros c' E' Et'. injection E' as <-.
    rewrite Et in Et'; injection Et' as ->. discriminate.
  - destruct (c_sub c) as [uid|] eqn:Es.
    + unfold first; rewrite Hf. eexists; split; reflexivity.
    + eexists; split; [reflexivity|]. intros c' E' _ Hs; injection E' as <-; contradiction.
Qed.

(** C1: once a refresh with raw token [r] has rotated its session, [r]'s
    hash is on no session row, and a later refresh presenting [r] (after
    any login, refresh and logout requests that hand out other tokens)
    fails, issues nothing and leaves the store as it was; when [r] still
    decodes as a refresh token the failure is "Session not found or
    revoked".  Stores are those reached from one without sessions. *)
Theorem refresh_token_replay_rejected db0 pre mid r now1 rot1 now2 rot2 na nr :
  sessions db0 = [] ->
  NoDup (flat_map issued (pre ++ ReqRefresh (Some r) now1 rot1 :: mid)) ->
  fst (refresh (Some r) now1 rot1 (run' db0 pre)) = Refreshed na nr ->
  let db1 := snd (refresh (Some r) now1 rot1 (run' db0 pre)) in
  let db2 := run' db1 mid in
  (forall s, In s (sessions db1) -> s_refresh_token_hash s <> hash_token r) /\
  (forall s, In s (sessions db2) -> live_with_hash (hash_token r) s = false) /\
  exists msg, refresh (Some r) now2 rot2 db2 = (RefreshAuthError msg, db2) /\
    (forall c, decode_token r now2 = TOk c -> c_type c = Some "refresh" -> c_sub c <> None ->
               msg = "Session not found or revoked").
Proof.
  intros H0 Hnd Hok; cbv zeta.
  rewrite flat_map_app in Hnd; cbn [flat_map] in Hnd.
  assert (Hi : session_inv (flat_map issued pre) (run' db0 pre)).
  { pose proof (run_inv pre [] db0) as H. cbn [app] in H. apply H.
    - unfold session_inv; rewrite H0; split; [constructor | intros y []].
    - exact (NoDup_app_remove_r _ _ Hnd). }
  destruct Hi as [Hnd1 Hincl1].
  destruct (refresh_cases (Some r) now1 rot1 (run' db0 pre))
    as [[msg E]|[r' [na' [nr' [us [Ec [Er [Ef E]]]]]]]];
    rewrite E in *; simpl in Hok; [discriminate|].
  injection Ec as <-. subst rot1. cbn [issued_hashes] in Hnd. cbn [snd].
  set (db1 := set_sessions (run' db0 pre) _).
  pose proof (find_some _ _ Ef) as [Hus Hlive].
  pose proof (live_with_hash_key _ _ Hlive) as Hush.
  assert (Hpast : In (hash_token r) (flat_map issued pre))
    by (apply Hincl1; rewrite <- Hush; apply in_map; exact Hus).
  assert (Hnr : hash_token nr' <> hash_token r).
  { intro Heq. apply (nodup_app_disjoint _ _ _ Hnd Hpast). rewrite Heq; left; reflexivity. }
  assert (Hgone : ~ In (hash_token r) (hashes db1)).
  { unfold db1; simpl.
    apply (update_first_drops_key _ _ _ _ _ us Hnd1 (live_with_hash_key _) Ef).
    intros y; rewrite rotate_row_hash; exact Hnr. }
  assert (Hmid : ~ In (hash_token r) (hashes (run' db1 mid))).
  { apply run_absent; [exact Hgone|]. intro H.
    apply (nodup_app_disjoint _ _ _ Hnd Hpast). right; exact H. }
  split; [| split].
  - intros s Hs Heq. apply Hgone. rewrite <- Heq. apply in_map; exact Hs.
  - intros s Hs. destruct (live_with_hash (hash_token r) s) eqn:El; [|reflexivity].
    exfalso; apply Hmid. rewrite <- (live_with_hash_key _ _ El). apply in_map; exact Hs.
  - apply refresh_absent_fails; exact Hmid.
Qed.

End SessionStore.

(** ** Refresh rejections and login errors *)

Section RouteErrors.

Variable Tok : Type.
Variable hash_token : Tok -> string.
Variable decode_token : Tok -> Z -> TokResult Claims.
Variable verify_password : string -> string -> bool.
Variable days : Z.

Local Abbreviation refresh := (refresh_tokens Tok hash_token decode_token days).
Local Abbreviation login' := (login Tok hash_token verify_password days).

(** C5: a token that decodes but whose claims do not carry
    [type == "refresh"] is rejected with "Invalid token type"; nothing is
    issued and the store is unchanged. *)
Theorem refresh_rejects_non_refresh_type r now rot db c :
  decode_token r now = TOk c -> c_type c <> Some "refresh" ->
  refresh (Some r) now rot db = (RefreshAuthError "Invalid token type", db).
Proof.
  intros Ed Et. unfold refresh_tokens. rewrite Ed.
  destruct (c_type c) as [t|]; [|reflexivity].
  destruct (String.eqb t "refresh") eqn:E.
  - apply String.eqb_eq in E; subst t; contradiction.
  - reflexivity.
Qed.

(** C9: a refresh token that decodes, names user [uid] and matches a
    live, unexpired session row still fails with "User not found or
    disabled" when that user is missing or inactive: no token is issued
    and the row keeps its hash, [last_used_at] and [expires_at]. *)
Theorem refresh_rejects_disabled_user r now rot db c uid us :
  decode_token r now = TOk c -> c_type c = Some "refresh" -> c_sub c = Some uid ->
  find (live_with_hash (hash_token r)) (sessions db) = Some us ->
  now <= s_expires_at us ->
  match user_by_id db uid with None => True | Some u => u_is_active u = false end ->
  refresh (Some r) now rot db = (RefreshAuthError "User not found or disabled", db).
Proof.
  intros Ed Et Es Ef Hexp Hu. unfold refresh_tokens, first. rewrite Ed, Et, Es. simpl.
  rewrite Ef.
  replace (s_expires_at us <? now) with false by (symmetry; apply Z.ltb_ge; lia).
  destruct (user_by_id db uid) as [u|]; [rewrite Hu|]; reflexivity.
Qed.

(** C3 (as the code has it): a username that resolves to no user, and a
    user allowed to log in locally (a local identity, or the legacy
    [auth_provider = "local"]) with a missing or wrong password, get the
    same 401 "Invalid username or password" and leave the store as it
    was; a user with neither is refused with the distinct "Please use your
    configured authentication provider to log in" before any password
    check; a right password on a disabled account gives "User account is
    disabled". *)
Theorem login_credential_errors username password ip ua now acc rt sid db :
  (resolve_login_user username db = None ->
     login' username password ip ua now acc rt sid db
     = (LoginHTTPError 401 "Invalid username or password", db)) /\
  (forall u, resolve_login_user username db = Some u ->
     (has_local_identity (u_id u) db = true \/ u_auth_provider u = "local") ->
     (u_password_hash u = None \/
      exists h, u_password_hash u = Some h /\ verify_password password h = false) ->
     login' username password ip ua now acc rt sid db
     = (LoginHTTPError 401 "Invalid username or password", db)) /\
  (forall u, resolve_login_user username db = Some u ->
     has_local_identity (u_id u) db = false -> u_auth_provider u <> "local" ->
     login' username password ip ua now acc rt sid db
     = (LoginHTTPError 401 "Please use your configured authentication provider to log in", db)) /\
  (forall u h, resolve_login_user username db = Some u ->
     (has_local_identity (u_id u) db = true \/ u_auth_provider u = "local") ->
     u_password_hash u = Some h -> verify_password password h = true -> u_is_active u = false ->
     login' username password ip ua now acc rt sid db
     = (LoginHTTPError 401 "User account is disabled", db)).
Proof.
  unfold login.
  assert (Hcap : forall u, (has_local_identity (u_id u) db = true \/ u_auth_provider u = "local") ->
            negb (has_local_identity (u_id u) db) && negb (String.eqb (u_auth_provider u) "local") = false).
  { intros u [H|H]; [rewrite H; reflexivity | rewrite H, andb_false_r; reflexivity]. }
  repeat split.
  - intros E; rewrite E; reflexivity.
  - intros u E Hc Hp. rewrite E, (Hcap u Hc).
    destruct Hp as [Hp|[h [Hp Hv]]]; rewrite Hp; [|rewrite Hv]; reflexivity.
  - intros u E Hl Hp. rewrite E, Hl.
    replace (String.eqb (u_auth_provider u) "local") with false
      by (symmetry; apply String.eqb_neq; exact Hp).
    reflexivity.
  - intros u h E Hc Hp Hv Ha. rewrite E, (Hcap u Hc), Hp, Hv, Ha. reflexivity.
Qed.

End RouteErrors.

(** C3 as stated fails: a user whose only credential path is an SSO
    provider gets, for a wrong password, a different error from a
    username that does not exist. *)
Lemma login_sso_user_error_differs :
  let db := mkDB [mkUser 1%nat "sso_user" None (Some "secret") true "dispatcharr" None None] [] [] [] in
  let run_login un := fst (login nat (fun _ => "h") String.eqb 7 un "wrong" None "" 0 0%nat 0%nat 0%nat db) in
  run_login "no_such_user" = LoginHTTPError 401 "Invalid username or password" /\
  run_login "sso_user" = LoginHTTPError 401 "Please use your configured authentication provider to log in" /\
  run_login "no_such_user" <> run_login "sso_user".
Proof. vm_compute. split; [reflexivity | split; [reflexivity | discriminate]]. Qed.

(** ** Concrete runs of the route theorems *)

Lemma refresh_token_replay_rejected_witness :
  let hash (n : nat) := String (ascii_of_nat (48 + n)) "" in
  let dec (n : nat) (_ : Z) := TOk (mkClaims (Some 1%nat) None (Some "refresh") 0 604800) in
  let db0 := mkDB [mkUser 1 "admin" None (Some "pw") true "local" None None] [] [] [] in
  let pre := [ReqLogin "admin" "pw" None "curl" 0 0%nat 1%nat 0%nat] in
  let db1 := snd (refresh_tokens nat hash dec 7 (Some 1%nat) 10 (TOk (2%nat, 3%nat))
                    (run nat hash dec String.eqb 7 db0 pre)) in
  (forall s, In s (sessions db1) -> live_with_hash (hash 1%nat) s = false) /\
  refresh_tokens nat hash dec 7 (Some 1%nat) 20 (TOk (4%nat, 5%nat)) db1
  = (RefreshAuthError "Session not found or revoked", db1).
Proof.
  intros hash dec db0 pre db1.
  destruct (refresh_token_replay_rejected nat hash dec String.eqb 7 db0 pre [] 1%nat
              10 (TOk (2%nat, 3%nat)) 20 (TOk (4%nat, 5%nat)) 2%nat 3%nat eq_refl)
    as [_ [Hlive [msg [E Hmsg]]]].
  - vm_compute. constructor; [intros [H|[]]; discriminate | constructor; [intros [] | constructor]].
  - vm_compute. reflexivity.
  - cbv zeta in E, Hlive. fold db1 in E, Hlive.
    change (run nat hash dec String.eqb 7 db1 []) with db1 in E, Hlive.
    split; [exact Hlive|]. rewrite E.
    rewrite (Hmsg (mkClaims (Some 1%nat) None (Some "refresh") 0 604800)); try reflexivity; discriminate.
Defined.

Lemma refresh_rejects_non_refresh_type_witness :
  let hmac (key : string) (_ : Claims) := key in
  let access := create_access_token hmac "s3cret" 30 1 "admin" 0 in
  refresh_tokens JWT (fun _ => "h") (decode_token hmac "s3cret") 7 (Some access) 60
    (TErr TokenRevokedError) empty_db
  = (RefreshAuthError "Invalid token type", empty_db).
Proof.
  intros hmac access.
  apply (refresh_rejects_non_refresh_type JWT (fun _ => "h") (decode_token hmac "s3cret") 7
           access 60 (TErr TokenRevokedError) empty_db
           (mkClaims (Some 1%nat) (Some "admin") None 0 1800)).
  - reflexivity.
  - discriminate.
Defined.

Lemma refresh_rejects_disabled_user_witness :
  let dec (n : nat) (_ : Z) := TOk (mkClaims (Some 1%nat) None (Some "refresh") 0 604800) in
  let row := mkSession 0 1 "h" None "curl" false 604800 None in
  let db := mkDB [mkUser 1 "admin" None (Some "pw") false "local" None None] [] [row] [] in
  refresh_tokens nat (fun _ => "h") dec 7 (Some 1%nat) 10 (TOk (2%nat, 3%nat)) db
  = (RefreshAuthError "User not found or disabled", db).
Proof.
  intros dec row db.
  apply (refresh_rejects_disabled_user nat (fun _ => "h") dec 7 1%nat 10 (TOk (2%nat, 3%nat)) db
           (mkClaims (Some 1%nat) None (Some "refresh") 0 604800) 1%nat row);
    try reflexivity.
  unfold row; simpl; lia.
Defined.

(** ** Identities *)

Lemma filter_remove_first_other {A} (p q : A -> bool) (l : list A) :
  (forall x, p x = true -> q x = false) -> filter q (remove_first p l) = filter q l.
Proof.
  intros H; induction l as [|x t IH]; simpl; [reflexivity|].
  destruct (p x) eqn:E; simpl.
  - rewrite (H x E); reflexivity.
  - rewrite IH; reflexivity.
Qed.

Lemma filter_remove_first_length {A} (p q : A -> bool) (l : list A) :
  (length (filter q l) <= S (length (filter q (remove_first p l))))%nat.
Proof.
  induction l as [|x t IH]; simpl; [lia|].
  destruct (p x) eqn:Ep; destruct (q x) eqn:Eq; simpl; rewrite ?Eq; simpl; lia.
Qed.

Lemma filter_split_length {A} (q t : A -> bool) (l : list A) :
  length (filter q l) = (length (filter q (filter (fun x => negb (t x)) l))
                         + length (filter (fun x => q x && t x) l))%nat.
Proof.
  induction l as [|x r IH]; simpl; [reflexivity|].
  destruct (t x) eqn:Et; destruct (q x) eqn:Eq; simpl; rewrite ?Et, ?Eq; simpl; lia.
Qed.

Lemma filter_key_at_most_one {A B} (f : A -> B) (t : A -> bool) (k : B) (l : list A) :
  NoDup (map f l) -> (forall x, t x = true -> f x = k) -> (length (filter t l) <= 1)%nat.
Proof.
  intros Hnd Ht; induction l as [|x r IH]; simpl; [lia|].
  inversion Hnd as [|? ? Hx Hr]; subst.
  destruct (t x) eqn:E; simpl; [|exact (IH Hr)].
  assert (filter t r = []) as ->; [|simpl; lia].
  destruct (filter t r) as [|y ys] eqn:Ef; [reflexivity|].
  exfalso. assert (Hy : In y (filter t r)) by (rewrite Ef; left; reflexivity).
  apply filter_In in Hy as [Hy Hty].
  apply Hx. rewrite (Ht x E), <- (Ht y Hty). apply in_map; exact Hy.
Qed.

(** C4: with a single identity the unlink route and [remove_user_identity]
    both refuse and delete nothing; under unlink, [remove_user_identity]
    (identity ids being the table's primary key) and
    [add_user_identity], every user that has an identity keeps one. *)
Theorem last_identity_never_unlinked iid uid db :
  (identity_count uid db = 1%nat ->
     (exists code detail, unlink_identity iid uid db = (UnlinkHTTPError code detail, db)) /\
     remove_user_identity iid uid db = (false, db)) /\
  (forall v, (1 <= identity_count v db)%nat ->
     (1 <= identity_count v (snd (unlink_identity iid uid db)))%nat) /\
  (forall v, NoDup (map i_id (identities db)) -> (1 <= identity_count v db)%nat ->
     (1 <= identity_count v (snd (remove_user_identity iid uid db)))%nat) /\
  (forall v iid' provider identifier external_id, (1 <= identity_count v db)%nat ->
     (1 <= identity_count v (snd (add_user_identity iid' uid provider identifier external_id db)))%nat).
Proof.
  set (target := fun i => Nat.eqb (i_id i) iid && Nat.eqb (i_user_id i) uid).
  assert (Htgt : forall v x, v <> uid -> target x = true -> Nat.eqb (i_user_id x) v = false).
  { intros v x Hv Hx. unfold target in Hx. apply andb_prop in Hx as [_ Hx].
    apply Nat.eqb_eq in Hx. apply Nat.eqb_neq. congruence. }
  split; [intros H; split | split; [intros v H | split]].
  - unfold unlink_identity; fold target. rewrite H, Nat.leb_refl.
    destruct (first target (identities db)); do 2 eexists; reflexivity.
  - unfold remove_user_identity. rewrite H; reflexivity.
  - unfold unlink_identity; fold target.
    destruct (first target (identities db)); [|exact H].
    destruct (Nat.leb (identity_count uid db) 1) eqn:Ec; [exact H|].
    apply Nat.leb_gt in Ec. unfold identity_count, identities_of in *; simpl.
    destruct (Nat.eq_dec v uid) as [->|Hv].
    + pose proof (filter_remove_first_length target (fun i => Nat.eqb (i_user_id i) uid)
                    (identities db)). lia.
    + rewrite filter_remove_first_other; [exact H | intros x; apply Htgt; exact Hv].
  - intros v Hnd H. unfold remove_user_identity; fold target.
    destruct (Nat.leb (identity_count uid db) 1) eqn:Ec; [exact H|].
    apply Nat.leb_gt in Ec. unfold identity_count, identities_of in *; simpl.
    destruct (Nat.eq_dec v uid) as [->|Hv].
    + rewrite (filter_split_length _ target (identities db)) in Ec.
      assert (Hle : (length (filter (fun x => Nat.eqb (i_user_id x) uid && target x) (identities db)) <= 1)%nat).
      { apply (filter_key_at_most_one i_id _ iid _ Hnd).
        intros x Hx; apply andb_prop in Hx as [_ Hx]; unfold target in Hx.
        apply andb_prop in Hx as [Hx _]; apply Nat.eqb_eq; exact Hx. }
      unfold target in *; cbv beta in *; lia.
    + assert (filter (fun x => Nat.eqb (i_user_id x) v && target x) (identities db) = []) as E0.
      { clear H Ec Hnd. induction (identities db) as [|x r IH]; simpl; [reflexivity|].
        destruct (target x) eqn:Et.
        - rewrite (Htgt v x Hv Et); simpl; exact IH.
        - rewrite andb_false_r; exact IH. }
      rewrite (filter_split_length _ target (identities db)), E0 in H; simpl in H.
      unfold target in *; cbv beta in *; lia.
  - intros v iid' provider identifier external_id H.
    unfold identity_count, identities_of in *; simpl.
    rewrite filter_app, length_app. lia.
Qed.

(** ** Password reset tokens *)

Lemma find_filter {A} (p q : A -> bool) (l : list A) :
  find q (filter p l) = find (fun x => p x && q x) l.
Proof.
  induction l as [|x t IH]; simpl; [reflexivity|].
  destruct (p x); simpl; [destruct (q x)|]; auto.
Qed.

Lemma find_none_all_false {A} (p : A -> bool) (l : list A) :
  (forall y, In y l -> p y = false) -> find p l = None.
Proof.
  induction l as [|x t IH]; simpl; intros H; [reflexivity|].
  rewrite (H x (or_introl eq_refl)). apply IH; intros y Hy; exact (H y (or_intror Hy)).
Qed.

(** When at most one element satisfies [q], updating the first [p]-element
    into one that fails [p] leaves no [p]-element. *)
Lemma update_first_clears {A} (p q : A -> bool) (f : A -> A) (l : list A) x :
  (length (filter q l) <= 1)%nat -> find p l = Some x ->
  (forall y, p y = true -> q y = true) -> (forall y, p (f y) = false) ->
  forall y, In y (update_first p f l) -> p y = false.
Proof.
  intros Hq Hf Hpq Hpf; induction l as [|a t IH]; simpl in *; [discriminate|].
  destruct (p a) eqn:Ea.
  - rewrite (Hpq a Ea) in Hq; simpl in Hq.
    intros y [<-|Hy]; [apply Hpf|].
    destruct (p y) eqn:Ey; [|reflexivity]. exfalso.
    assert (Hin : In y (filter q t)) by (apply filter_In; split; [exact Hy | exact (Hpq y Ey)]).
    destruct (filter q t); [contradiction | simpl in Hq; lia].
  - intros y [<-|Hy]; [exact Ea|].
    apply IH; [| exact Hf | exact Hy].
    destruct (q a); simpl in Hq; lia.
Qed.

Section ResetTokens.

Variable verify_password : string -> string -> bool.
Variable validate_password : string -> option string -> PasswordValidationResult.

Local Abbreviation reset := (reset_password verify_password validate_password).
Local Abbreviation matches token := (fun t => verify_password token (r_token_hash t)).

Lemma reset_ok_cases token new_password now new_hash db :
  fst (reset token new_password now new_hash db) = ResetOk ->
  exists t u, find (unused_matching verify_password token) (reset_tokens db) = Some t /\
    now <= r_expires_at t /\ user_by_id db (r_user_id t) = Some u /\ u_is_active u = true /\
    snd (reset token new_password now new_hash db) =
      mkDB (update_first (fun u' => Nat.eqb (u_id u') (u_id u)) (set_password new_hash now) (users db))
           (identities db) (sessions db)
           (update_first (unused_matching verify_password token) (mark_used now) (reset_tokens db)).
Proof.
  unfold reset_password, first. rewrite find_filter.
  change (fun x => is_unused x && verify_password token (r_token_hash x))
    with (unused_matching verify_password token).
  destruct (find (unused_matching verify_password token) (reset_tokens db)) as [t|] eqn:Ef;
    simpl; [|discriminate].
  destruct (r_expires_at t <? now) eqn:Ee; simpl; [discriminate|].
  destruct (user_by_id db (r_user_id t)) as [u|] eqn:Eu; simpl; [|discriminate].
  destruct (u_is_active u) eqn:Ea; simpl; [|discriminate].
  destruct (valid (validate_password new_password (Some (u_username u)))); simpl; [|discriminate].
  intros _. exists t, u. repeat split; try reflexivity; try assumption.
  apply Z.ltb_ge; exact Ee.
Qed.

(** C2: a successful redemption was authorized by an unused, unexpired
    record matching the token and marks that record used in the same
    store update that sets the password hash; when every record matching
    the token is used or expired the request fails and changes nothing;
    and once a token (matching one record) has been redeemed, redeeming it
    again fails and leaves the store, password hashes included, as it was. *)
Theorem reset_token_single_use token new_password now new_hash db :
  (fst (reset token new_password now new_hash db) = ResetOk ->
     exists t u, In t (reset_tokens db) /\ r_used_at t = None /\ now <= r_expires_at t /\
       verify_password token (r_token_hash t) = true /\ user_by_id db (r_user_id t) = Some u /\
       snd (reset token new_password now new_hash db) =
         mkDB (update_first (fun u' => Nat.eqb (u_id u') (u_id u)) (set_password new_hash now) (users db))
              (identities db) (sessions db)
              (update_first (unused_matching verify_password token) (mark_used now) (reset_tokens db))) /\
  ((forall t, In t (reset_tokens db) -> verify_password token (r_token_hash t) = true ->
       r_used_at t <> None \/ r_expires_at t < now) ->
     exists detail, reset token new_password now new_hash db = (ResetBadRequest detail, db)) /\
  (forall new_password' now' new_hash',
     (length (filter (matches token) (reset_tokens db)) <= 1)%nat ->
     fst (reset token new_password now new_hash db) = ResetOk ->
     let db1 := snd (reset token new_password now new_hash db) in
     reset token new_password' now' new_hash' db1
     = (ResetBadRequest "Invalid or expired reset token", db1)).
Proof.
  split; [|split].
  - intros Hok. destruct (reset_ok_cases _ _ _ _ _ Hok) as [t [u [Ef [He [Eu [Ea E]]]]]].
    destruct (find_some _ _ Ef) as [Hin Hm]. unfold unused_matching, is_unused in Hm.
    destruct (r_used_at t) eqn:Eused; [discriminate|]. simpl in Hm.
    exists t, u. repeat split; assumption.
  - intros Hall. unfold reset_password, first. rewrite find_filter.
    destruct (find _ (reset_tokens db)) as [t|] eqn:Ef; [|eexists; reflexivity].
    destruct (find_some _ _ Ef) as [Hin Hm]. apply andb_prop in Hm as [Hu Hv].
    unfold is_unused in Hu. destruct (Hall t Hin Hv) as [Hused|Hexp].
    + destruct (r_used_at t); [|contradiction]; discriminate.
    + apply Z.ltb_lt in Hexp. rewrite Hexp. eexists; reflexivity.
  - intros np nw nh Hone Hok; cbv zeta.
    destruct (reset_ok_cases _ _ _ _ _ Hok) as [t [u [Ef [He [Eu [Ea E]]]]]].
    rewrite E. unfold reset_password at 1, first. simpl. rewrite find_filter.
    rewrite find_none_all_false; [reflexivity|].
    apply (update_first_clears (unused_matching verify_password token) (matches token)
             (mark_used now) (reset_tokens db) t Hone Ef).
    + intros y Hy; apply andb_prop in Hy as [_ Hy]; exact Hy.
    + intros y; reflexivity.
Qed.

End ResetTokens.

(** ** Forgot password *)

Lemma find_unique_some {A} (p : A -> bool) (l : list A) u :
  (length (filter p l) <= 1)%nat -> In u l -> p u = true -> find p l = Some u.
Proof.
  intros Hl Hin Hp; induction l as [|a t IH]; simpl in *; [contradiction|].
  destruct (p a) eqn:Ea.
  - destruct Hin as [->|Hin]; [reflexivity|]. exfalso.
    simpl in Hl. assert (H : In u (filter p t)) by (apply filter_In; split; assumption).
    destruct (filter p t); [contradiction | simpl in Hl; lia].
  - destruct Hin as [->|Hin]; [congruence|]. exact (IH Hl Hin).
Qed.

(** C6: forgot-password always answers the fixed success message; with
    e-mail addresses unique among users, it adds a reset-token row
    ([expires_at] one hour after issuance, unused) exactly when a user
    with that address exists, is active and has provider "local", and
    otherwise leaves the store unchanged. *)
Theorem forgot_password_token_iff_local_active email now token_hash rid db :
  (length (filter (email_is email) (users db)) <= 1)%nat ->
  fst (forgot_password email now token_hash rid db) = FORGOT_PASSWORD_MESSAGE /\
  ((exists u, In u (users db) /\ u_email u = Some email /\ u_is_active u = true /\
      u_auth_provider u = "local" /\
      snd (forgot_password email now token_hash rid db) =
        set_reset_tokens db (reset_tokens db ++ [mkReset rid (u_id u) token_hash (now + 3600) None]))
   \/
   (~ (exists u, In u (users db) /\ u_email u = Some email /\ u_is_active u = true /\
        u_auth_provider u = "local") /\
    snd (forgot_password email now token_hash rid db) = db)).
Proof.
  intros Huniq. unfold forgot_password, first.
  destruct (find (email_is email) (users db)) as [u|] eqn:Ef.
  - destruct (find_some _ _ Ef) as [Hin He].
    assert (Hem : u_email u = Some email)
      by (unfold email_is in He; destruct (u_email u); [apply String.eqb_eq in He; congruence | discriminate]).
    destruct (u_is_active u && String.eqb (u_auth_provider u) "local") eqn:Ec; simpl.
    + split; [reflexivity|]. left. apply andb_prop in Ec as [Ea El].
      exists u. repeat split; try assumption. apply String.eqb_eq; exact El.
    + split; [reflexivity|]. right. split; [|reflexivity].
      intros [v [Hv [Hve [Hva Hvl]]]].
      assert (Hpv : email_is email v = true) by (unfold email_is; rewrite Hve; apply String.eqb_refl).
      rewrite (find_unique_some _ _ v Huniq Hv Hpv) in Ef. injection Ef as ->.
      rewrite Hva, Hvl in Ec. discriminate.
  - split; [reflexivity|]. right. split; [|reflexivity].
    intros [v [Hv [Hve _]]].
    assert (Hpv : email_is email v = true) by (unfold email_is; rewrite Hve; apply String.eqb_refl).
    rewrite (find_unique_some _ _ v Huniq Hv Hpv) in Ef. discriminate.
Qed.

Lemma forgot_password_token_iff_local_active_witness :
  let alice := mkUser 1 "alice" (Some "alice@example.com") (Some "h") true "local" None None in
  let db := mkDB [alice] [] [] [] in
  snd (forgot_password "alice@example.com" 100 "bcrypt-hash" 7 db)
  = set_reset_tokens db [mkReset 7 1 "bcrypt-hash" 3700 None].
Proof.
  intros alice db.
  destruct (forgot_password_token_iff_local_active "alice@example.com" 100 "bcrypt-hash" 7 db)
    as [_ [[u [Hin [_ [_ [_ E]]]]]|[Hn _]]].
  - simpl; lia.
  - rewrite E. destruct Hin as [<-|[]]. reflexivity.
  - exfalso; apply Hn. exists alice. repeat split; left; reflexivity.
Defined.

(** ** Settings cache *)

(** C10: whenever [save_auth_settings s] returns, [s] is the cached
    settings and a following [get_auth_settings()] returns [s]; it
    returns [True] exactly when the directory was created and the file
    written, [False] when either failed with a permission or OS error.
    It raises only on another write error. *)
Theorem save_auth_settings_caches s mk wr st key mk' wr' :
  match save_auth_settings s mk wr st with
  | (Returns ok, st') =>
      cached_auth_settings st' = Some s /\
      (ok = true <-> mk = MkdirOk /\ wr = WriteOk) /\
      fst (get_auth_settings key mk' wr' st') = Returns s
  | (Raises, _) => mk = MkdirOk /\ exists rest, wr = WriteOtherError rest
  end.
Proof.
  destruct mk; [destruct wr as [|rest|rest]|]; simpl.
  - repeat split; auto.
  - repeat split; try discriminate; intros [_ H]; discriminate.
  - split; [reflexivity | exists rest; reflexivity].
  - repeat split; try discriminate; intros [H _]; discriminate.
Qed.

(** ** Password policy *)

Lemma first_failing_none rs : first_failing rs = None <-> forallb fst rs = true.
Proof.
  induction rs as [|[ok e] t IH]; simpl; [tauto|].
  destruct ok; simpl; [exact IH | split; discriminate].
Qed.

(** C7: [validate_password] accepts exactly when every enabled rule
    passes, and otherwise reports the one error of the first failing rule
    in the order length, uppercase, lowercase, digit, special, deny-list,
    username.  With the default settings "Short1!" fails on the length
    minimum 8, and "ValidPass123!" (not on the deny-list) is valid with no
    error. *)
Theorem validate_password_first_failing_rule common_passwords :
  ~ In "validpass123!" (map lower_string common_passwords) ->
  (forall cfg password username,
     validate_password cfg common_passwords password username =
       match first_failing (password_rules cfg common_passwords password username) with
       | None => mkPVR true None
       | Some e => mkPVR false (Some e)
       end /\
     (valid (validate_password cfg common_passwords password username) = true <->
      forallb fst (password_rules cfg common_passwords password username) = true)) /\
  validate_password default_local common_passwords "Short1!" None = mkPVR false (Some (TooShort 8)) /\
  validate_password default_local common_passwords "ValidPass123!" None = mkPVR true None.
Proof.
  intros Hc.
  assert (Hgen : forall cfg password username,
     validate_password cfg common_passwords password username =
       match first_failing (password_rules cfg common_passwords password username) with
       | None => mkPVR true None
       | Some e => mkPVR false (Some e)
       end).
  { intros cfg p u. unfold validate_password, password_rules. cbn [first_failing].
    destruct (Z.ltb_spec (Z.of_nat (String.length p)) (min_password_length cfg)),
      (Z.leb_spec (min_password_length cfg) (Z.of_nat (String.length p))); try lia;
      [reflexivity|].
    destruct (require_uppercase cfg), (any_char is_upper p); try reflexivity; simpl;
    destruct (require_lowercase cfg), (any_char is_lower p); try reflexivity; simpl;
    destruct (require_number cfg), (any_char is_digit p); try reflexivity; simpl;
    destruct (require_special cfg), (any_char is_special p); try reflexivity; simpl;
    destruct (existsb _ common_passwords); try reflexivity; simpl;
    destruct u as [u|]; try reflexivity;
    destruct (contains (lower_string u) (lower_string p)); reflexivity. }
  split; [|split].
  - intros cfg p u. split; [apply Hgen|].
    rewrite Hgen, <- first_failing_none.
    destruct (first_failing _); simpl; split; congruence.
  - reflexivity.
  - assert (He : existsb (fun c => String.eqb (lower_string c) (lower_string "ValidPass123!"))
                  common_passwords = false).
    { apply Bool.not_true_iff_false. intros H.
      apply existsb_exists in H as [c [Hin Heq]]. apply String.eqb_eq in Heq.
      apply Hc. change "validpass123!" with (lower_string "ValidPass123!").
      rewrite <- Heq. apply in_map; exact Hin. }
    cbv beta delta [validate_password]. rewrite He. reflexivity.
Qed.

Lemma validate_password_first_failing_rule_witness :
  let deny := ["password123!"; "qwerty123!"; "admin123!"; "welcome123!"; "letmein123!"] in
  validate_password default_local deny "Short1!" None = mkPVR false (Some (TooShort 8)) /\
  validate_password default_local deny "ValidPass123!" None = mkPVR true None /\
  validate_password default_local deny "Password123!" None = mkPVR false (Some CommonPassword).
Proof.
  intros deny.
  destruct (validate_password_first_failing_rule deny) as [_ [E1 E2]].
  - vm_compute. intros H; repeat destruct H as [H|H]; try discriminate; exact H.
  - split; [exact E1 | split; [exact E2 | vm_compute; reflexivity]].
Defined.

(** ** Token service *)

(** C8: decoding, before it expires, the token [create_access_token]
    produced for [uid] and [name] gives [sub = uid], [username = name] and
    [exp - iat] equal to the configured lifetime in seconds; the default
    lifetime is 30 minutes. *)
Theorem access_token_roundtrip hmac secret minutes uid name now t :
  t <= now + minutes * 60 ->
  (exists c, decode_token hmac secret (create_access_token hmac secret minutes uid name now) t = TOk c /\
     c_sub c = Some uid /\ c_username c = Some name /\ c_exp c - c_iat c = minutes * 60 /\
     Z.abs (c_exp c - c_iat c - minutes * 60) <= 1) /\
  access_token_expire_minutes (jwt default_auth_settings) = 30.
Proof.
  intros Ht. split; [|reflexivity].
  eexists. unfold decode_token, create_access_token. simpl.
  rewrite String.eqb_refl. simpl.
  replace (now + minutes * 60 <? t) with false by (symmetry; apply Z.ltb_ge; exact Ht).
  repeat split; simpl; lia.
Qed.

Lemma access_token_roundtrip_witness :
  exists c, decode_token (fun k _ => k) "s3cret"
              (create_access_token (fun k _ => k) "s3cret" 30 42 "testuser" 1000) 1000 = TOk c /\
    c_sub c = Some 42%nat /\ c_username c = Some "testuser" /\ c_exp c - c_iat c = 1800.
Proof.
  destruct (access_token_roundtrip (fun k _ => k) "s3cret" 30 42 "testuser" 1000 1000) as [[c [E [Hs [Hu [Hd _]]]]] _].
  - lia.
  - exists c. repeat split; assumption.
Defined.

(* ================================================================== *)
(** * Further properties of the code *)

(** ** The settings cache *)

Lemma load_returns_cached k mk wr st s st' :
  load_auth_settings k mk wr st = (Returns s, st') -> cached_auth_settings st' = Some s.
Proof.
  unfold load_auth_settings, save_auth_settings.
  destruct (cached_auth_settings st) as [c|] eqn:Ec.
  - intros H; inversion H; subst; exact Ec.
  - destruct (auth_config_file st) as [[f|]|];
      [destruct (String.eqb (secret_key (jwt f)) "")|..];
      destruct mk, wr; simpl; intros H; inversion H; subst; reflexivity.
Qed.

Lemma save_cache_after s mk wr st r st' :
  save_auth_settings s mk wr st = (r, st') ->
  cached_auth_settings st' = match r with Returns _ => Some s | Raises => cached_auth_settings st end.
Proof.
  unfold save_auth_settings; destruct mk, wr; intros H; inversion H; subst; reflexivity.
Qed.

(** Once [load_auth_settings] has returned settings, every later call
    returns the same settings from the cache and touches nothing: no key
    is generated and nothing is written. *)
Theorem load_auth_settings_cache_hit k mk wr st s st' :
  load_auth_settings k mk wr st = (Returns s, st') ->
  forall k' mk' wr', load_auth_settings k' mk' wr' st' = (Returns s, st').
Proof.
  intros H k' mk' wr'. unfold load_auth_settings.
  rewrite (load_returns_cached _ _ _ _ _ _ H). reflexivity.
Qed.

(** With an empty cache, the settings [load_auth_settings] returns always
    carry a non-empty JWT secret (given a non-empty generated key): the
    one in the config file when it has one, the generated one otherwise,
    also when the file is unreadable or saving fails. *)
Theorem load_auth_settings_secret_nonempty k mk wr st s st' :
  cached_auth_settings st = None -> k <> "" ->
  load_auth_settings k mk wr st = (Returns s, st') -> secret_key (jwt s) <> "".
Proof.
  intros Hc Hk. unfold load_auth_settings, save_auth_settings. rewrite Hc.
  destruct (auth_config_file st) as [[f|]|].
  - destruct (String.eqb (secret_key (jwt f)) "") eqn:E.
    + destruct mk, wr; simpl; intros H; inversion H; subst; exact Hk.
    + intros H; inversion H; subst. apply String.eqb_neq; exact E.
  - destruct mk, wr; simpl; intros H; inversion H; subst; exact Hk.
  - destruct mk, wr; simpl; intros H; inversion H; subst; exact Hk.
Qed.

Lemma load_auth_settings_secret_nonempty_witness :
  secret_key (jwt (with_secret_key default_auth_settings "k")) <> "".
Proof.
  apply (load_auth_settings_secret_nonempty "k" MkdirOk WriteOk (mkSettingsState None None)
           _ (mkSettingsState (Some (with_secret_key default_auth_settings "k"))
                (Some (ParsedSettings (with_secret_key default_auth_settings "k"))))).
  - reflexivity.
  - discriminate.
  - reflexivity.
Defined.


(** [get_jwt_secret_key] never returns an empty key (given non-empty
    generated keys), and the cache then holds settings with that key, so
    the next call returns the same key without generating or saving. *)
Theorem get_jwt_secret_key_stable e key2 mk2 wr2 st key st' :
  le_key e <> "" -> key2 <> "" ->
  get_jwt_secret_key e key2 mk2 wr2 st = (Returns key, st') ->
  key <> "" /\
  forall e' key2' mk2' wr2', get_jwt_secret_key e' key2' mk2' wr2' st' = (Returns key, st').
Proof.
  intros Hk1 Hk2. unfold get_jwt_secret_key, get_auth_settings_in, get_auth_settings.
  destruct (load_auth_settings (le_key e) (le_mkdir e) (le_write e) st) as [[s|] st1] eqn:El;
    [|discriminate].
  pose proof (load_returns_cached _ _ _ _ _ _ El) as Hc1.
  destruct (String.eqb (secret_key (jwt s)) "") eqn:E.
  - destruct (save_auth_settings (with_secret_key s key2) mk2 wr2
                (mkSettingsState (Some (with_secret_key s key2)) (auth_config_file st1)))
      as [[b|] st2] eqn:Es; [|discriminate].
    intros H; injection H as <- <-. apply save_cache_after in Es. simpl in Es |- *.
    split; [exact Hk2|]. intros e' key2' mk2' wr2'.
    unfold load_auth_settings; rewrite Es; simpl.
    replace (String.eqb key2 "") with false by (symmetry; apply String.eqb_neq; exact Hk2).
    reflexivity.
  - intros H; inversion H; subst. split; [apply String.eqb_neq; exact E|].
    intros e' key2' mk2' wr2'. unfold load_auth_settings; rewrite Hc1; simpl.
    rewrite E. reflexivity.
Qed.

Lemma get_jwt_secret_key_stable_witness :
  let st0 := mkSettingsState (Some (with_secret_key default_auth_settings "k0"))
               (Some (ParsedSettings (with_secret_key default_auth_settings "k0"))) in
  "k0" <> "" /\
  get_jwt_secret_key (mkLoadEnv "k9" MkdirOk WriteOk) "k9" MkdirOk WriteOk st0 = (Returns "k0", st0).
Proof.
  intros st0.
  destruct (get_jwt_secret_key_stable (mkLoadEnv "k0" MkdirOk WriteOk) "k0" MkdirOk WriteOk
           (mkSettingsState None None) "k0" st0) as [H1 H2].
  - discriminate.
  - discriminate.
  - reflexivity.
  - split; [exact H1 | apply H2].
Defined.

(** [mark_setup_complete] sets the flag on the cached settings object
    itself: once [get_auth_settings()] has returned, the cache holds the
    settings with [setup_complete = true], and later reads see it, whether
    the save then wrote the file, could not, or raised. *)
Theorem mark_setup_complete_sticks e mk2 wr2 st s st1 :
  get_auth_settings_in e st = (Returns s, st1) ->
  let out := mark_setup_complete e mk2 wr2 st in
  cached_auth_settings (snd out) = Some (with_setup_complete s true) /\
  (fst out = Raises <-> exists l, mk2 = MkdirOk /\ wr2 = WriteOtherError l) /\
  forall e', fst (get_auth_settings_in e' (snd out)) = Returns (with_setup_complete s true).
Proof.
  intros H. cbv zeta. unfold mark_setup_complete. rewrite H.
  destruct mk2, wr2; simpl; (split; [reflexivity | split; [|intros; reflexivity]]);
    split; intros Hx; try discriminate; try (destruct Hx as [? [? ?]]; discriminate);
    eauto.
Qed.

Lemma mark_setup_complete_sticks_witness :
  cached_auth_settings
    (snd (mark_setup_complete (mkLoadEnv "k" MkdirOk WriteOk) MkdirOk (WriteOtherError None)
            (mkSettingsState None None)))
  = Some (with_setup_complete (with_secret_key default_auth_settings "k") true).
Proof.
  apply (mark_setup_complete_sticks (mkLoadEnv "k" MkdirOk WriteOk) MkdirOk (WriteOtherError None)
           (mkSettingsState None None) (with_secret_key default_auth_settings "k")
           (mkSettingsState (Some (with_secret_key default_auth_settings "k"))
              (Some (ParsedSettings (with_secret_key default_auth_settings "k"))))).
  reflexivity.
Defined.

(** PUT /api/auth/admin/settings puts the updated settings in the cache
    in every outcome of the save, never touches the JWT settings (secret
    key, algorithm, lifetimes), the session settings or [setup_complete],
    and answers "Settings updated" unless the save raises, in particular
    also when the config directory cannot be created and the file keeps
    its old contents. *)
Theorem update_admin_auth_settings_applies r e mk2 wr2 st s st1 :
  get_auth_settings_in e st = (Returns s, st1) ->
  let out := update_admin_auth_settings r e mk2 wr2 st in
  let s' := apply_settings_update r s in
  cached_auth_settings (snd out) = Some s' /\
  jwt s' = jwt s /\ session s' = session s /\ setup_complete s' = setup_complete s /\
  (fst out = Returns "Settings updated" \/
   (fst out = Raises /\ exists l, mk2 = MkdirOk /\ wr2 = WriteOtherError l)) /\
  (mk2 = MkdirPermissionOrOSError ->
     fst out = Returns "Settings updated" /\ auth_config_file (snd out) = auth_config_file st1).
Proof.
  intros H. cbv zeta. unfold update_admin_auth_settings. rewrite H.
  destruct mk2, wr2; simpl; repeat split; try discriminate; eauto.
Qed.

Lemma update_admin_auth_settings_applies_witness :
  let r := mkAuthSettingsUpdateRequest None None None (Some 12) None None in
  fst (update_admin_auth_settings r (mkLoadEnv "k" MkdirOk WriteOk) MkdirPermissionOrOSError WriteOk
         (mkSettingsState (Some default_auth_settings) None)) = Returns "Settings updated" /\
  jwt (apply_settings_update r default_auth_settings) = default_jwt.
Proof.
  intros r.
  destruct (update_admin_auth_settings_applies r (mkLoadEnv "k" MkdirOk WriteOk)
              MkdirPermissionOrOSError WriteOk (mkSettingsState (Some default_auth_settings) None)
              default_auth_settings (mkSettingsState (Some default_auth_settings) None))
    as [_ [Hj [_ [_ [_ Hm]]]]].
  - reflexivity.
  - split; [apply Hm; reflexivity | exact Hj].
Defined.

(** GET /api/auth/status reports [setup_complete] as the stored flag or
    "some user exists", and when it turns the flag on it does so on the
    cached object, so the cache carries the reported value even when the
    save raises (the route then fails with a 500). *)
Theorem get_auth_status_setup_flag e mk2 wr2 smtp db st s st1 :
  get_auth_settings_in e st = (Returns s, st1) ->
  let out := get_auth_status e mk2 wr2 smtp db st in
  let sc := setup_complete s || Nat.ltb 0 (user_count db) in
  (forall a, fst out = Returns a ->
     st_setup_complete a = sc /\ st_enabled_providers a = get_enabled_providers s /\
     st_require_auth a = require_auth s) /\
  (fst out = Raises ->
     setup_complete s = false /\ user_count db <> 0%nat /\ exists l, mk2 = MkdirOk /\ wr2 = WriteOtherError l) /\
  (exists c, cached_auth_settings (snd out) = Some c /\ setup_complete c = sc).
Proof.
  intros H. cbv zeta. unfold get_auth_status. rewrite H.
  pose proof (load_returns_cached _ _ _ _ _ _ H) as Hc.
  destruct (setup_complete s) eqn:Es; simpl.
  - split; [intros a Ha; inversion Ha; subst; simpl; auto|].
    split; [discriminate|]. exists s; auto.
  - destruct (Nat.ltb 0 (user_count db)) eqn:En.
    + apply Nat.ltb_lt in En.
      destruct mk2, wr2; simpl;
        (split; [intros a Ha; inversion Ha; subst; simpl; auto|]);
        (split; [try discriminate|]);
        try (exists (with_setup_complete s true); split; reflexivity).
      intros _. split; [reflexivity | split; [lia | eauto]].
    + split; [intros a Ha; inversion Ha; subst; simpl; auto|].
      split; [discriminate|]. exists s; auto.
Qed.

Lemma get_auth_status_setup_flag_witness :
  let db := mkDB [mkUser 1 "admin" None None true "local" None None] [] [] [] in
  let out := get_auth_status (mkLoadEnv "k" MkdirOk WriteOk) MkdirOk WriteOk false db
               (mkSettingsState (Some default_auth_settings) None) in
  exists c, cached_auth_settings (snd out) = Some c /\ setup_complete c = true.
Proof.
  intros db out.
  apply (get_auth_status_setup_flag (mkLoadEnv "k" MkdirOk WriteOk) MkdirOk WriteOk false db
           (mkSettingsState (Some default_auth_settings) None) default_auth_settings
           (mkSettingsState (Some default_auth_settings) None)).
  reflexivity.
Defined.

(** ** Lists updated in place, continued *)

Lemma update_first_twice {A} (p : A -> bool) (f : A -> A) (l : list A) :
  (forall x, p (f x) = p x) -> (forall x, f (f x) = f x) ->
  update_first p f (update_first p f l) = update_first p f l.
Proof.
  intros Hp Hf; induction l as [|x t IH]; simpl; [reflexivity|].
  destruct (p x) eqn:E; simpl.
  - rewrite Hp, E, Hf; reflexivity.
  - rewrite E, IH; reflexivity.
Qed.

Lemma in_update_first_other {A} (p : A -> bool) (f : A -> A) (l : list A) y :
  In y l -> p y = false -> In y (update_first p f l).
Proof.
  induction l as [|x t IH]; simpl; [tauto|].
  intros [<-|Hy] Hpy; [rewrite Hpy; left; reflexivity|].
  destruct (p x); simpl; [right; exact Hy | right; exact (IH Hy Hpy)].
Qed.

Lemma in_update_first_ne {A} (p : A -> bool) (f : A -> A) (l : list A) x y :
  find p l = Some x -> In y l -> y <> x -> In y (update_first p f l).
Proof.
  induction l as [|a t IH]; simpl; [discriminate|].
  destruct (p a) eqn:E.
  - intros Hx; injection Hx as <-. intros [<-|Hy] Hne; [contradiction | right; exact Hy].
  - intros Hx [<-|Hy] Hne; [left; reflexivity | right; exact (IH Hx Hy Hne)].
Qed.


Lemma in_update_first_image {A} (p : A -> bool) (f : A -> A) (l : list A) x :
  find p l = Some x -> In (f x) (update_first p f l).
Proof.
  induction l as [|a t IH]; simpl; [discriminate|].
  destruct (p a) eqn:E.
  - intros Hx; injection Hx as <-. left; reflexivity.
  - intros Hx; right; exact (IH Hx).
Qed.

Lemma find_update_first_same {A} (p : A -> bool) (f : A -> A) (l : list A) x :
  find p l = Some x -> p (f x) = true -> find p (update_first p f l) = Some (f x).
Proof.
  induction l as [|a t IH]; simpl; [discriminate|].
  destruct (p a) eqn:E.
  - intros Hx; injection Hx as <-. simpl. intros H; rewrite H; reflexivity.
  - intros Hx Hf. simpl. rewrite E. exact (IH Hx Hf).
Qed.

Lemma find_update_first_other {A} (p q : A -> bool) (f : A -> A) (l : list A) :
  (forall x, p x = true -> q x = false) -> (forall x, q (f x) = q x) ->
  find q (update_first p f l) = find q l.
Proof.
  intros Hpq Hq; induction l as [|a t IH]; simpl; [reflexivity|].
  destruct (p a) eqn:E; simpl.
  - rewrite Hq, (Hpq a E); reflexivity.
  - rewrite IH; reflexivity.
Qed.

Lemma length_update_first {A} (p : A -> bool) (f : A -> A) (l : list A) :
  length (update_first p f l) = length l.
Proof. induction l as [|a t IH]; simpl; [|destruct (p a); simpl; rewrite ?IH]; reflexivity. Qed.

Lemma filter_update_first_count {A} (p q : A -> bool) (f : A -> A) (l : list A) x :
  find p l = Some x ->
  (length (filter q (update_first p f l)) + (if q x then 1 else 0)
   = length (filter q l) + (if q (f x) then 1 else 0))%nat.
Proof.
  induction l as [|a t IH]; simpl; [discriminate|].
  destruct (p a) eqn:E.
  - intros Hx; injection Hx as <-. simpl.
    destruct (q a), (q (f a)); simpl; lia.
  - intros Hx. specialize (IH Hx). simpl. destruct (q a); simpl; lia.
Qed.

Lemma filter_update_first_other {A} (p q : A -> bool) (f : A -> A) (l : list A) :
  (forall x, p x = true -> q x = false) -> (forall x, q (f x) = q x) ->
  filter q (update_first p f l) = filter q l.
Proof.
  intros Hpq Hq; induction l as [|a t IH]; simpl; [reflexivity|].
  destruct (p a) eqn:E; simpl.
  - rewrite Hq, (Hpq a E); reflexivity.
  - rewrite IH; reflexivity.
Qed.

Lemma find_ext {A} (p q : A -> bool) (l : list A) :
  (forall x, p x = q x) -> find p l = find q l.
Proof. intros H; induction l as [|a t IH]; simpl; [|rewrite H, IH]; reflexivity. Qed.

Lemma substring_0_length n s : (String.length (substring 0 n s) <= n)%nat.
Proof.
  revert n; induction s as [|c t IH]; intros [|n]; simpl; try lia.
  specialize (IH n); lia.
Qed.

(** ** Sessions under logout, refresh and login *)

Section SessionRoutes.

Variable Tok : Type.
Variable hash_token : Tok -> string.
Variable decode_token : Tok -> Z -> TokResult Claims.
Variable verify_password : string -> string -> bool.
Variable days : Z.

Local Abbreviation refresh := (refresh_tokens Tok hash_token decode_token days).
Local Abbreviation logout' := (logout Tok hash_token).
Local Abbreviation login' := (login Tok hash_token verify_password days).

Lemma with_hash_revoke h s : with_hash h (revoke_row s) = with_hash h s.
Proof. reflexivity. Qed.

Lemma logout_rows_not_live h ss :
  NoDup (map s_refresh_token_hash ss) ->
  forall y, In y (update_first (with_hash h) revoke_row ss) -> live_with_hash h y = false.
Proof.
  induction ss as [|x t IH]; simpl; [tauto|].
  intros Hnd; inversion Hnd as [|? ? Hx Ht]; subst.
  destruct (with_hash h x) eqn:E.
  - unfold with_hash in E; apply String.eqb_eq in E.
    intros y [<-|Hy].
    + unfold live_with_hash; simpl; apply andb_false_r.
    + unfold live_with_hash. destruct (String.eqb (s_refresh_token_hash y) h) eqn:Ey; [|reflexivity].
      apply String.eqb_eq in Ey. exfalso; apply Hx. rewrite E, <- Ey. apply in_map; exact Hy.
  - intros y [<-|Hy].
    + unfold live_with_hash. unfold with_hash in E. rewrite E. reflexivity.
    + exact (IH Ht y Hy).
Qed.

(** Logout is idempotent, never adds, drops or re-keys a session row,
    touches no other table, and keeps every row whose hash is not the
    presented token's. *)
Theorem logout_idempotent_frame c db :
  let db1 := logout Tok hash_token c db in
  logout Tok hash_token c db1 = db1 /\
  users db1 = users db /\ identities db1 = identities db /\ reset_tokens db1 = reset_tokens db /\
  map s_refresh_token_hash (sessions db1) = map s_refresh_token_hash (sessions db) /\
  map s_user_id (sessions db1) = map s_user_id (sessions db) /\
  (forall s, In s (sessions db) ->
     match c with Some r => s_refresh_token_hash s <> hash_token r | None => True end ->
     In s (sessions db1)).
Proof.
  cbv zeta. unfold logout.
  destruct c as [r|]; [|repeat split; auto].
  unfold first.
  destruct (find (with_hash (hash_token r)) (sessions db)) as [x|] eqn:Ef;
    [|repeat split; auto; rewrite Ef; reflexivity].
  simpl. repeat split.
  - rewrite (find_update_first_same _ _ _ x Ef); [|exact (proj2 (find_some _ _ Ef))].
    rewrite update_first_twice; [reflexivity | intro; reflexivity | intro; reflexivity].
  - apply map_update_first_same; reflexivity.
  - apply map_update_first_same; reflexivity.
  - intros s Hs Hne. apply in_update_first_other; [exact Hs|].
    unfold with_hash; apply String.eqb_neq; exact Hne.
Qed.

(** After logging out with a refresh token (session hashes being
    distinct), presenting the same refresh token to the refresh route
    fails with "Session not found or revoked" and issues nothing. *)
Theorem logout_then_refresh_rejected r now rot db c uid :
  NoDup (map s_refresh_token_hash (sessions db)) ->
  decode_token r now = TOk c -> c_type c = Some "refresh" -> c_sub c = Some uid ->
  refresh (Some r) now rot (logout' (Some r) db)
  = (RefreshAuthError "Session not found or revoked", logout' (Some r) db).
Proof.
  intros Hnd Ed Et Es.
  assert (Hf : find (live_with_hash (hash_token r)) (sessions (logout' (Some r) db)) = None).
  { unfold logout, first.
    destruct (find (with_hash (hash_token r)) (sessions db)) as [x|] eqn:Ef; simpl.
    - apply find_none_all_false. apply logout_rows_not_live; exact Hnd.
    - apply find_none_all_false. intros y Hy.
      pose proof (find_none _ _ Ef y Hy) as Hw. unfold live_with_hash.
      unfold with_hash in Hw. rewrite Hw. reflexivity. }
  revert Hf; generalize (logout' (Some r) db); intros db1 Hf.
  unfold refresh_tokens, first. rewrite Ed, Et, Es. simpl. rewrite Hf. reflexivity.
Qed.

(** Logout revokes the first row carrying the token's hash; when that
    row was live, its user has one active session fewer, as
    [GET /admin/users/{id}] counts them, and every other user keeps the
    same count. *)
Theorem logout_revokes_one_session r db x :
  find (with_hash (hash_token r)) (sessions db) = Some x ->
  let db1 := logout' (Some r) db in
  find (with_hash (hash_token r)) (sessions db1) = Some (revoke_row x) /\ s_is_revoked (revoke_row x) = true /\
  (s_is_revoked x = false ->
     S (active_session_count (s_user_id x) db1) = active_session_count (s_user_id x) db) /\
  (forall v, v <> s_user_id x -> active_session_count v db1 = active_session_count v db).
Proof.
  intros Ef. cbv zeta. unfold logout, first. rewrite Ef. simpl.
  split; [apply find_update_first_same; [exact Ef | exact (proj2 (find_some _ _ Ef))]|].
  split; [reflexivity|]. unfold active_session_count; simpl. split.
  - intros Hr.
    pose proof (filter_update_first_count (with_hash (hash_token r))
                  (fun s => Nat.eqb (s_user_id s) (s_user_id x) && negb (s_is_revoked s))
                  revoke_row (sessions db) x Ef) as H.
    simpl in H. rewrite Nat.eqb_refl, Hr in H. simpl in H. lia.
  - intros v Hv.
    pose proof (filter_update_first_count (with_hash (hash_token r))
                  (fun s => Nat.eqb (s_user_id s) v && negb (s_is_revoked s))
                  revoke_row (sessions db) x Ef) as H.
    simpl in H.
    replace (Nat.eqb (s_user_id x) v) with false in H by (symmetry; apply Nat.eqb_neq; lia).
    simpl in H. lia.
Qed.

(** A successful refresh needs a token that decodes as a refresh token
    naming an existing, active user and a live, unexpired session row
    with its hash; it rewrites that one row (new hash, [expires_at] now
    plus the refresh lifetime, [last_used_at] now, same user), keeps every
    other row and the number of rows, and touches no other table. *)
Theorem refresh_success_frame cookie now rot db na nr :
  fst (refresh cookie now rot db) = Refreshed na nr ->
  let db1 := snd (refresh cookie now rot db) in
  users db1 = users db /\ identities db1 = identities db /\ reset_tokens db1 = reset_tokens db /\
  length (sessions db1) = length (sessions db) /\
  exists r cl uid u us, cookie = Some r /\ rot = TOk (na, nr) /\
    decode_token r now = TOk cl /\ c_type cl = Some "refresh" /\ c_sub cl = Some uid /\
    user_by_id db uid = Some u /\ u_is_active u = true /\
    find (live_with_hash (hash_token r)) (sessions db) = Some us /\ now <= s_expires_at us /\
    In (rotate_row days (hash_token nr) now us) (sessions db1) /\
    s_user_id (rotate_row days (hash_token nr) now us) = s_user_id us /\
    s_expires_at (rotate_row days (hash_token nr) now us) = now + days * SECONDS_PER_DAY /\
    (forall s, In s (sessions db) -> s <> us -> In s (sessions db1)).
Proof.
  unfold refresh_tokens, first.
  destruct cookie as [r|]; [|discriminate]. simpl.
  destruct (decode_token r now) as [cl|e] eqn:Ed; [|discriminate].
  destruct (c_type cl) as [t|] eqn:Et; [|discriminate].
  destruct (negb (String.eqb t "refresh")) eqn:Etr; [discriminate|].
  apply negb_false_iff, String.eqb_eq in Etr; subst t.
  destruct (c_sub cl) as [uid|] eqn:Es; [|discriminate].
  destruct (find (live_with_hash (hash_token r)) (sessions db)) as [us|] eqn:Ef; [|discriminate].
  destruct (s_expires_at us <? now) eqn:Ex; [discriminate|].
  destruct (user_by_id db uid) as [u|] eqn:Eu; [|discriminate].
  destruct (negb (u_is_active u)) eqn:Ea; [discriminate|].
  destruct rot as [[a b]|e]; [|discriminate].
  intros H; injection H as <- <-. simpl.
  split; [reflexivity|]. split; [reflexivity|]. split; [reflexivity|].
  split; [apply length_update_first|].
  exists r, cl, uid, u, us. repeat split; auto.
  - apply negb_false_iff; exact Ea.
  - apply Z.ltb_ge; exact Ex.
  - apply in_update_first_image; exact Ef.
  - intros s Hs Hne. exact (in_update_first_ne _ _ _ _ _ Ef Hs Hne).
Qed.

(** A login succeeds only for a user who may log in locally, is active
    and whose stored password hash verifies; it then appends exactly one
    session row (the new refresh token's hash, not revoked, the user agent
    cut to at most 500 characters, [expires_at] now plus the refresh
    lifetime), so that user's active-session count goes up by one and
    every other user's stays the same. *)
Theorem login_success_session un pw ip ua now acc rt sid db u a r :
  fst (login' un pw ip ua now acc rt sid db) = LoginOk u a r ->
  let db1 := snd (login' un pw ip ua now acc rt sid db) in
  exists user h, resolve_login_user un db = Some user /\
    (has_local_identity (u_id user) db = true \/ u_auth_provider user = "local") /\
    u_password_hash user = Some h /\ verify_password pw h = true /\ u_is_active user = true /\
    u = touch_login now user /\ a = acc /\ r = rt /\
    sessions db1 = sessions db ++ [mkSession sid (u_id user) (hash_token rt) ip (substring 0 500 ua)
                                     false (now + days * SECONDS_PER_DAY) None] /\
    (String.length (substring 0 500 ua) <= 500)%nat /\
    active_session_count (u_id user) db1 = S (active_session_count (u_id user) db) /\
    (forall v, v <> u_id user -> active_session_count v db1 = active_session_count v db).
Proof.
  unfold login.
  destruct (resolve_login_user un db) as [user|] eqn:Er; [|discriminate].
  destruct (negb (has_local_identity (u_id user) db) && negb (String.eqb (u_auth_provider user) "local"))
    eqn:Ec; [discriminate|].
  destruct (u_password_hash user) as [h|] eqn:Eh; [|discriminate].
  destruct (negb (verify_password pw h)) eqn:Ev; [discriminate|].
  destruct (negb (u_is_active user)) eqn:Ea; [discriminate|].
  intros H; injection H as <- <- <-. cbv zeta. simpl.
  exists user, h. repeat split; auto.
  - destruct (has_local_identity (u_id user) db); [left; reflexivity|right].
    simpl in Ec. apply negb_false_iff, String.eqb_eq in Ec; exact Ec.
  - apply negb_false_iff; exact Ev.
  - apply negb_false_iff; exact Ea.
  - apply substring_0_length.
  - unfold active_session_count; simpl. rewrite filter_app, length_app. simpl.
    rewrite Nat.eqb_refl; simpl. lia.
  - intros v Hv. unfold active_session_count; simpl. rewrite filter_app, length_app. simpl.
    replace (Nat.eqb (u_id user) v) with false by (symmetry; apply Nat.eqb_neq; lia).
    simpl. lia.
Qed.

End SessionRoutes.

Lemma logout_then_refresh_rejected_witness :
  let hash (n : nat) := String (ascii_of_nat (48 + n)) "" in
  let dec (n : nat) (_ : Z) := TOk (mkClaims (Some 1%nat) None (Some "refresh") 0 604800) in
  let db := mkDB [mkUser 1 "admin" None (Some "pw") true "local" None None] []
              [mkSession 0 1 "1" None "curl" false 604800 None] [] in
  refresh_tokens nat hash dec 7 (Some 1%nat) 10 (TOk (2%nat, 3%nat)) (logout nat hash (Some 1%nat) db)
  = (RefreshAuthError "Session not found or revoked", logout nat hash (Some 1%nat) db).
Proof.
  intros hash dec db.
  apply (logout_then_refresh_rejected nat hash dec String.eqb 7 1%nat 10 (TOk (2%nat, 3%nat)) db
           (mkClaims (Some 1%nat) None (Some "refresh") 0 604800) 1%nat).
  - simpl. constructor; [intros [] | constructor].
  - reflexivity.
  - reflexivity.
  - reflexivity.
Defined.

Lemma logout_revokes_one_session_witness :
  let hash (n : nat) := String (ascii_of_nat (48 + n)) "" in
  let row := mkSession 0 1 "1" None "curl" false 604800 None in
  let db := mkDB [] [] [row] [] in
  S (active_session_count 1 (logout nat hash (Some 1%nat) db)) = active_session_count 1 db.
Proof.
  intros hash row db.
  destruct (logout_revokes_one_session nat hash 1%nat db row) as [_ [_ [H _]]].
  - reflexivity.
  - exact (H eq_refl).
Defined.

Lemma refresh_success_frame_witness :
  let hash (n : nat) := String (ascii_of_nat (48 + n)) "" in
  let dec (n : nat) (_ : Z) := TOk (mkClaims (Some 1%nat) None (Some "refresh") 0 604800) in
  let db := mkDB [mkUser 1 "admin" None (Some "pw") true "local" None None] []
              [mkSession 0 1 "1" None "curl" false 604800 None] [] in
  let out := refresh_tokens nat hash dec 7 (Some 1%nat) 10 (TOk (2%nat, 3%nat)) db in
  fst out = Refreshed 2%nat 3%nat /\ length (sessions (snd out)) = 1%nat.
Proof.
  intros hash dec db out.
  destruct (refresh_success_frame nat hash dec 7 (Some 1%nat) 10 (TOk (2%nat, 3%nat)) db 2%nat 3%nat)
    as [_ [_ [_ [Hl _]]]].
  - reflexivity.
  - split; [reflexivity | exact Hl].
Defined.

Lemma login_success_session_witness :
  let hash (n : nat) := String (ascii_of_nat (48 + n)) "" in
  let user := mkUser 1 "admin" None (Some "pw") true "local" None None in
  let db := mkDB [user] [] [] [] in
  let out := login nat hash String.eqb 7 "admin" "pw" None "curl" 0 0%nat 1%nat 0%nat db in
  fst out = LoginOk (touch_login 0 user) 0%nat 1%nat /\
  active_session_count 1 (snd out) = 1%nat.
Proof.
  intros hash user db out.
  destruct (login_success_session nat hash String.eqb 7 "admin" "pw" None "curl" 0 0%nat 1%nat 0%nat db
              (touch_login 0 user) 0%nat 1%nat eq_refl)
    as [u [h [Er [_ [_ [_ [_ [_ [_ [_ [_ [_ [Hc _]]]]]]]]]]]]].
  split; [reflexivity|].
  vm_compute in Er. injection Er as <-. cbn [u_id] in Hc.
  unfold out; rewrite Hc. reflexivity.
Defined.

(** ** Accounts: setup, password change, profile and admin edits *)

Lemma find_app_none {A} (p : A -> bool) (l l' : list A) :
  find p l = None -> find p (l ++ l') = find p l'.
Proof. induction l as [|a t IH]; simpl; [auto|]. destruct (p a); [discriminate | exact IH]. Qed.

Lemma find_app_last_some {A} (p : A -> bool) (l : list A) x :
  p x = true -> exists y, find p (l ++ [x]) = Some y.
Proof.
  intros Hx; induction l as [|a t IH]; simpl; [rewrite Hx; eauto|].
  destruct (p a); eauto.
Qed.

Lemma nodup_snoc {A} (l : list A) a : NoDup l -> ~ In a l -> NoDup (l ++ [a]).
Proof.
  intros Hl Ha. apply NoDup_app; [exact Hl | repeat constructor; simpl; tauto |].
  intros x Hx [<-|[]]; exact (Ha Hx).
Qed.

Lemma nodup_map_inj {A B} (g : A -> B) (l : list A) a b :
  NoDup (map g l) -> In a l -> In b l -> g a = g b -> a = b.
Proof.
  induction l as [|x t IH]; simpl; [tauto|].
  intros Hnd; inversion Hnd as [|? ? Hx Ht]; subst.
  intros [<-|Ha] [<-|Hb] E; auto.
  - exfalso; apply Hx; rewrite E; apply in_map; exact Hb.
  - exfalso; apply Hx; rewrite <- E; apply in_map; exact Ha.
Qed.




Section AccountProps.

Variable verify_password : string -> string -> bool.
Variable hash_password : string -> string.
Variable validate_password : string -> option string -> PasswordValidationResult.
Variable orm_delete_user_identities : nat -> list UserIdentity -> list UserIdentity.

Local Abbreviation setup := (initial_setup hash_password validate_password).
Local Abbreviation SETUP_DONE := "Setup already completed. Users already exist.".

(** First-run setup works exactly once: with any user present it is
    refused with 403 and changes nothing; a successful setup runs on an
    empty user table and leaves exactly one user, active, local, holding
    the password's hash, with a local identity named after it, after
    which [setup-required] answers false and every further setup is
    refused. *)
Theorem initial_setup_once un em pw uid iid created db :
  ((0 < user_count db)%nat -> setup un em pw uid iid created db = (RHTTPError 403 SETUP_DONE, db)) /\
  (forall u db1, setup un em pw uid iid created db = (ROk u, db1) ->
     users db = [] /\ users db1 = [u] /\ u_id u = uid /\ u_username u = un /\
     u_is_active u = true /\ u_auth_provider u = "local" /\ u_password_hash u = Some (hash_password pw) /\
     In (mkIdentity iid uid "local" None un None) (identities db1) /\
     sessions db1 = sessions db /\
     check_setup_required db = true /\ check_setup_required db1 = false /\
     forall un' em' pw' uid' iid' c', setup un' em' pw' uid' iid' c' db1 = (RHTTPError 403 SETUP_DONE, db1)).
Proof.
  unfold initial_setup. split.
  - intros H. apply Nat.ltb_lt in H. rewrite H. reflexivity.
  - intros u db1.
    destruct (Nat.ltb 0 (user_count db)) eqn:En; [discriminate|].
    destruct (negb (valid (validate_password pw (Some un)))); [discriminate|].
    intros H; injection H as <- <-.
    assert (Hu : users db = []).
    { apply Nat.ltb_ge in En. unfold user_count in En. destruct (users db); [reflexivity|simpl in En; lia]. }
    simpl. rewrite Hu. simpl.
    repeat split; auto.
    + apply in_or_app; right; left; reflexivity.
    + unfold check_setup_required, user_count. rewrite Hu. reflexivity.
Qed.

(** After a successful first-run setup the new admin can log in with the
    same username and password (given no stale local identity of that
    name and a [hash_password] that [verify_password] accepts). *)
Theorem initial_setup_then_login (Tok : Type) (hash_token : Tok -> string) (days : Z)
    un em pw uid iid created db ip ua now acc rt sid :
  users db = [] -> first (local_identity_for un) (identities db) = None ->
  valid (validate_password pw (Some un)) = true -> verify_password pw (hash_password pw) = true ->
  exists u db1, setup un em pw uid iid created db = (ROk u, db1) /\
    fst (login Tok hash_token verify_password days un pw ip ua now acc rt sid db1)
    = LoginOk (touch_login now u) acc rt.
Proof.
  intros Hu Hi Hv Hp. unfold initial_setup.
  replace (Nat.ltb 0 (user_count db)) with false by (unfold user_count; rewrite Hu; reflexivity).
  rewrite Hv. cbn [negb].
  eexists; eexists; split; [reflexivity|].
  set (u := mkUser uid un (Some em) (Some (hash_password pw)) true "local" created None).
  set (ident := mkIdentity iid uid "local" None un None).
  set (db1 := mkDB (users db ++ [u]) (identities db ++ [ident]) (sessions db) (reset_tokens db)).
  assert (Hid : first (local_identity_for un) (identities db1) = Some ident).
  { unfold first in *; simpl. rewrite (find_app_none _ _ _ Hi). simpl.
    unfold local_identity_for; simpl. rewrite !String.eqb_refl. reflexivity. }
  assert (Hr : resolve_login_user un db1 = Some u).
  { unfold resolve_login_user, login_user_pred. rewrite Hid. unfold first; simpl.
    rewrite Hu; simpl. rewrite Nat.eqb_refl. reflexivity. }
  assert (Hl : has_local_identity (u_id u) db1 = true).
  { unfold has_local_identity, first; simpl.
    destruct (find_app_last_some (fun i => Nat.eqb (i_user_id i) uid && String.eqb (i_provider i) "local")
                (identities db) ident) as [y Hy];
      [simpl; rewrite Nat.eqb_refl; reflexivity|].
    rewrite Hy. reflexivity. }
  unfold login. rewrite Hr, Hl. simpl. rewrite Hp. reflexivity.
Qed.

(** Changing the password never touches sessions (other logins stay
    valid), identities or reset tokens; a missing, empty or
    non-verifying stored hash gives 401 "Current password is incorrect";
    a failure leaves the store as it was; a success needed an acceptable
    new password, changes no other user's row, and (user ids being
    distinct) stores the hash of the new password on the current user. *)
Theorem change_password_effects cu cur new now db :
  let out := change_password verify_password hash_password validate_password cu cur new now db in
  sessions (snd out) = sessions db /\ identities (snd out) = identities db /\
  reset_tokens (snd out) = reset_tokens db /\
  (password_hash_ok verify_password cur (u_password_hash cu) = false ->
     out = (RHTTPError 401 "Current password is incorrect", db)) /\
  (fst out <> ROk tt -> snd out = db) /\
  (fst out = ROk tt ->
     valid (validate_password new (Some (u_username cu))) = true /\
     (forall u, In u (users db) -> u_id u <> u_id cu -> In u (users (snd out))) /\
     (In cu (users db) -> user_ids_unique db ->
        user_by_id (snd out) (u_id cu) = Some (set_password (hash_password new) now cu))).
Proof.
  cbv zeta. unfold change_password.
  destruct (password_hash_ok verify_password cur (u_password_hash cu)) eqn:Eh; simpl.
  2:{ repeat split; intros; try reflexivity; try discriminate. }
  destruct (valid (validate_password new (Some (u_username cu)))) eqn:Ev; simpl.
  2:{ repeat split; intros; try reflexivity; try discriminate. }
  split; [reflexivity|]. split; [reflexivity|]. split; [reflexivity|].
  split; [discriminate|]. split; [intros H; contradiction H; reflexivity|].
  intros _. split; [reflexivity|]. split.
  - intros u Hu Hne. apply in_update_first_other; [exact Hu|].
    unfold id_is; apply Nat.eqb_neq; exact Hne.
  - intros Hin Hids. unfold user_by_id, first; simpl.
    destruct (find (id_is (u_id cu)) (users db)) as [x|] eqn:Ef.
    + destruct (find_some _ _ Ef) as [Hx Hpx]. unfold id_is in Hpx; apply Nat.eqb_eq in Hpx.
      pose proof (nodup_map_inj u_id _ _ _ Hids Hx Hin Hpx) as ->.
      change (fun u => Nat.eqb (u_id u) (u_id cu)) with (id_is (u_id cu)).
      apply find_update_first_same; [exact Ef | unfold id_is; simpl; apply Nat.eqb_refl].
    + exfalso. pose proof (find_none _ _ Ef cu Hin) as H. unfold id_is in H.
      rewrite Nat.eqb_refl in H; discriminate.
Qed.





(** No admin user edit can deactivate the admin making it: its row stays
    present and active whatever user and fields the request names. *)
Theorem update_user_keeps_admin_active admin uid ia act em now db a :
  user_by_id db admin = Some a -> u_is_active a = true ->
  exists a', user_by_id (snd (update_user admin uid ia act em now db)) admin = Some a' /\
    u_is_active a' = true.
Proof.
  intros Ea Hact. unfold update_user.
  destruct (user_by_id db uid) as [user|] eqn:Eu; [|exists a; auto].
  assert (Hid : u_id user = uid).
  { unfold user_by_id, first in Eu. apply find_some in Eu as [_ H]. apply Nat.eqb_eq; exact H. }
  destruct (match ia with Some false => Nat.eqb (u_id user) admin | _ => false end); [exists a; auto|].
  destruct (match act with Some false => Nat.eqb (u_id user) admin | _ => false end) eqn:Eself;
    [exists a; auto|].
  assert (Ea' : find (id_is admin) (users db) = Some a) by exact Ea.
  change (exists a', find (id_is admin)
            (update_first (id_is (u_id user)) (set_admin_fields act em now) (users db)) = Some a' /\
          u_is_active a' = true).
  destruct (Nat.eq_dec uid admin) as [<-|Hne].
  - assert (user = a) as <- by (rewrite Ea in Eu; injection Eu as ->; reflexivity).
    rewrite Hid. exists (set_admin_fields act em now user). split.
    + apply find_update_first_same; [exact Ea' | unfold id_is; simpl; rewrite Hid; apply Nat.eqb_refl].
    + simpl. rewrite Hid, Nat.eqb_refl in Eself.
      destruct act as [[|]|]; [reflexivity | discriminate | exact Hact].
  - exists a. split; [|exact Hact].
    rewrite find_update_first_other; [exact Ea' | |].
    + intros x Hx. unfold id_is in *. apply Nat.eqb_eq in Hx. apply Nat.eqb_neq. lia.
    + intros x; reflexivity.
Qed.

Lemma update_user_keeps_admin_active_witness :
  let admin := mkUser 1 "admin" None (Some "h") true "local" None None in
  let db := mkDB [admin] [] [] [] in
  fst (update_user 1 1 None (Some false) None 5 db) = RHTTPError 400 "Cannot deactivate your own account" /\
  exists a', user_by_id (snd (update_user 1 1 None (Some false) None 5 db)) 1 = Some a' /\
    u_is_active a' = true.
Proof.
  intros admin db. split; [reflexivity|].
  apply (update_user_keeps_admin_active 1 1 None (Some false) None 5 db admin); reflexivity.
Defined.

(** Deleting a user (never the admin doing it) removes its row, all its
    sessions and all its reset tokens, keeps every other user's rows, and
    afterwards a refresh token whose session belonged to it is refused
    with "Session not found or revoked". *)
Theorem delete_user_removes (Tok : Type) (hash_token : Tok -> string)
    (decode_token : Tok -> Z -> TokResult Claims) (days : Z) admin uid db msg :
  fst (delete_user orm_delete_user_identities admin uid db) = ROk msg ->
  let db1 := snd (delete_user orm_delete_user_identities admin uid db) in
  admin <> uid /\ user_by_id db1 uid = None /\ user_by_id db1 admin = user_by_id db admin /\
  (forall s, In s (sessions db1) -> s_user_id s <> uid) /\
  (forall t, In t (reset_tokens db1) -> r_user_id t <> uid) /\
  (forall s, In s (sessions db) -> s_user_id s <> uid -> In s (sessions db1)) /\
  (forall t, In t (reset_tokens db) -> r_user_id t <> uid -> In t (reset_tokens db1)) /\
  (forall u, In u (users db) -> u_id u <> uid -> In u (users db1)) /\
  (forall r now rot c,
     (forall s, In s (sessions db) -> s_refresh_token_hash s = hash_token r -> s_user_id s = uid) ->
     decode_token r now = TOk c -> c_type c = Some "refresh" -> c_sub c <> None ->
     refresh_tokens Tok hash_token decode_token days (Some r) now rot db1
     = (RefreshAuthError "Session not found or revoked", db1)).
Proof.
  unfold delete_user.
  destruct (user_by_id db uid) as [user|] eqn:Eu; [|discriminate].
  pose proof Eu as Eu'. unfold user_by_id, first in Eu'.
  destruct (find_some _ _ Eu') as [_ Hid]. apply Nat.eqb_eq in Hid.
  destruct (Nat.eqb (u_id user) admin) eqn:Ea; [discriminate|].
  apply Nat.eqb_neq in Ea. intros _. cbv zeta. simpl. rewrite Hid.
  assert (Hs : forall s, In s (filter (fun s => negb (Nat.eqb (s_user_id s) uid)) (sessions db)) ->
                 s_user_id s <> uid).
  { intros s Hs. apply filter_In in Hs as [_ Hs]. apply negb_true_iff, Nat.eqb_neq in Hs; exact Hs. }
  split; [lia|]. split.
  { unfold user_by_id, first; simpl. apply find_none_all_false. intros y Hy.
    apply filter_In in Hy as [_ Hy]. unfold id_is in Hy. apply negb_true_iff in Hy; exact Hy. }
  split.
  { unfold user_by_id, first; simpl. rewrite find_filter. apply find_ext. intros x.
    unfold id_is. destruct (Nat.eqb (u_id x) admin) eqn:Ex; [|apply andb_false_r].
    apply Nat.eqb_eq in Ex. replace (Nat.eqb (u_id x) uid) with false by (symmetry; apply Nat.eqb_neq; lia).
    reflexivity. }
  split; [exact Hs|]. split.
  { intros t Ht. apply filter_In in Ht as [_ Ht]. apply negb_true_iff, Nat.eqb_neq in Ht; exact Ht. }
  split.
  { intros s Hin Hne. apply filter_In; split; [exact Hin|]. apply negb_true_iff, Nat.eqb_neq; exact Hne. }
  split.
  { intros t Hin Hne. apply filter_In; split; [exact Hin|]. apply negb_true_iff, Nat.eqb_neq; exact Hne. }
  split.
  { intros u Hin Hne. apply filter_In; split; [exact Hin|]. unfold id_is. apply negb_true_iff, Nat.eqb_neq; exact Hne. }
  intros r now rot c Hown Ed Et Esub.
  assert (Hf : find (live_with_hash (hash_token r))
                 (filter (fun s => negb (Nat.eqb (s_user_id s) uid)) (sessions db)) = None).
  { apply find_none_all_false. intros y Hy.
    pose proof (Hs y Hy) as Hyu. apply filter_In in Hy as [Hy _].
    unfold live_with_hash. destruct (String.eqb (s_refresh_token_hash y) (hash_token r)) eqn:Eh; [|reflexivity].
    apply String.eqb_eq in Eh. exfalso; exact (Hyu (Hown y Hy Eh)). }
  revert Hf. generalize (filter (fun s => negb (Nat.eqb (s_user_id s) uid)) (sessions db)). intros ss Hf.
  unfold refresh_tokens, first. rewrite Ed, Et. simpl.
  destruct (c_sub c) as [x|]; [|contradiction]. simpl. rewrite Hf. reflexivity.
Qed.

(** A password reset never touches sessions or identities: logins made
    before the reset stay valid. It keeps the user ids and the number of
    users and of reset tokens. *)
Theorem reset_password_keeps_sessions token pw now h db :
  let db1 := snd (reset_password verify_password validate_password token pw now h db) in
  sessions db1 = sessions db /\ identities db1 = identities db /\
  map u_id (users db1) = map u_id (users db) /\ length (reset_tokens db1) = length (reset_tokens db).
Proof.
  cbv zeta. unfold reset_password.
  destruct (first _ _) as [t|]; [|repeat split].
  destruct (r_expires_at t <? now); [repeat split|].
  destruct (user_by_id db (r_user_id t)) as [u|]; [|repeat split].
  destruct (negb (u_is_active u)); [repeat split|].
  destruct (negb (valid (validate_password pw (Some (u_username u))))); [repeat split|].
  simpl. repeat split.
  - apply map_update_first_same; reflexivity.
  - apply length_update_first.
Qed.

End AccountProps.

Lemma load_auth_settings_cache_hit_witness :
  let s := with_secret_key default_auth_settings "k" in
  let st1 := mkSettingsState (Some s) (Some (ParsedSettings s)) in
  load_auth_settings "other" MkdirPermissionOrOSError WriteOk st1 = (Returns s, st1).
Proof.
  intros s st1.
  apply (load_auth_settings_cache_hit "k" MkdirOk WriteOk (mkSettingsState None None) s st1).
  reflexivity.
Defined.

Lemma initial_setup_then_login_witness :
  let hash (n : nat) := String (ascii_of_nat (48 + n)) "" in
  exists u db1,
    initial_setup (fun p => p) (fun _ _ => valid_result) "admin" "a@x.io" "pw" 1 1 None empty_db
    = (ROk u, db1) /\
    fst (login nat hash String.eqb 7 "admin" "pw" None "curl" 10 0%nat 1%nat 0%nat db1)
    = LoginOk (touch_login 10 u) 0%nat 1%nat.
Proof.
  intros hash.
  apply (initial_setup_then_login String.eqb (fun p => p) (fun _ _ => valid_result) nat hash 7
           "admin" "a@x.io" "pw" 1 1 None empty_db None "curl" 10 0%nat 1%nat 0%nat);
    reflexivity.
Defined.

Lemma delete_user_removes_witness :
  let hash (n : nat) := String (ascii_of_nat (48 + n)) "" in
  let dec (n : nat) (_ : Z) := TOk (mkClaims (Some 2%nat) None (Some "refresh") 0 604800) in
  let orm (uid : nat) (is : list UserIdentity) := filter (fun i => negb (Nat.eqb (i_user_id i) uid)) is in
  let db := mkDB [mkUser 1 "admin" None (Some "pw") true "local" None None;
                  mkUser 2 "bob" None (Some "pw") true "local" None None] []
              [mkSession 0 2 "1" None "curl" false 604800 None] [] in
  let db1 := snd (delete_user orm 1 2 db) in
  refresh_tokens nat hash dec 7 (Some 1%nat) 10 (TOk (2%nat, 3%nat)) db1
  = (RefreshAuthError "Session not found or revoked", db1).
Proof.
  intros hash dec orm db db1.
  destruct (delete_user_removes orm nat hash dec 7 1 2 db "User 'bob' deleted")
    as [_ [_ [_ [_ [_ [_ [_ [_ H]]]]]]]].
  - reflexivity.
  - apply (H 1%nat 10 (TOk (2%nat, 3%nat)) (mkClaims (Some 2%nat) None (Some "refresh") 0 604800)).
    + intros x [<-|[]] _; reflexivity.
    + reflexivity.
    + reflexivity.
    + discriminate.
Defined.

(** ** Identities: link, unlink and remove *)



Lemma filter_none_keeps {A} (t : A -> bool) (l : list A) :
  length (filter t l) = 0%nat -> filter (fun x => negb (t x)) l = l.
Proof.
  induction l as [|a r IH]; simpl; [reflexivity|].
  destruct (t a); simpl; [discriminate|]. intros H; rewrite (IH H); reflexivity.
Qed.

Lemma filter_filter_other {A} (t q : A -> bool) (l : list A) :
  (forall x, t x = true -> q x = false) -> filter q (filter (fun x => negb (t x)) l) = filter q l.
Proof.
  intros H; induction l as [|a r IH]; simpl; [reflexivity|].
  destruct (t a) eqn:E; simpl.
  - rewrite (H a E); exact IH.
  - destruct (q a); rewrite IH; reflexivity.
Qed.

Lemma find_none_not_in_map {A B} (g : A -> B) (p : A -> bool) (l : list A) k :
  find p l = None -> (forall x, g x = k -> p x = true) -> ~ In k (map g l).
Proof.
  intros Hf Hk Hin. apply in_map_iff in Hin as [x [Hx Hin]].
  pose proof (find_none _ _ Hf x Hin) as E. rewrite (Hk x Hx) in E. discriminate.
Qed.

Lemma lower_string_eq_local p : String.eqb (lower_string p) "local" = true -> lower_string p = "local".
Proof. apply String.eqb_eq. Qed.


(** [remove_user_identity] answers true exactly when the user has more
    than one identity and one of them has the given id; when it answers
    false the store is unchanged. Only the user's own identity rows can
    go: every other user's identities, and the other tables, stay. *)
Theorem remove_user_identity_result iid uid db :
  let out := remove_user_identity iid uid db in
  users (snd out) = users db /\ sessions (snd out) = sessions db /\
  reset_tokens (snd out) = reset_tokens db /\
  (forall v, v <> uid -> identities_of v (snd out) = identities_of v db) /\
  (fst out = true <-> (1 < identity_count uid db)%nat /\
                      exists i, In i (identities db) /\ i_id i = iid /\ i_user_id i = uid) /\
  (fst out = false -> snd out = db).
Proof.
  cbv zeta. unfold remove_user_identity.
  set (target := fun i => Nat.eqb (i_id i) iid && Nat.eqb (i_user_id i) uid).
  destruct (Nat.leb (identity_count uid db) 1) eqn:Ec.
  { apply Nat.leb_le in Ec. simpl. split; [reflexivity|]. split; [reflexivity|].
    split; [reflexivity|]. split; [intros; reflexivity|]. split; [|intros; reflexivity].
    split; [discriminate | intros [H _]; lia]. }
  apply Nat.leb_gt in Ec. simpl. split; [reflexivity|]. split; [reflexivity|]. split; [reflexivity|].
  split; [|split].
  - intros v Hv. unfold identities_of; simpl. apply filter_filter_other.
    intros y Hy. unfold target in Hy. apply andb_prop in Hy as [_ Hy]. apply Nat.eqb_eq in Hy.
    apply Nat.eqb_neq. congruence.
  - rewrite Nat.ltb_lt. split.
    + intros H. split; [exact Ec|].
      destruct (filter target (identities db)) as [|y ys] eqn:Ey; [simpl in H; lia|].
      assert (Hy : In y (filter target (identities db))) by (rewrite Ey; left; reflexivity).
      apply filter_In in Hy as [Hy Hty]. unfold target in Hty.
      apply andb_prop in Hty as [H1 H2]; apply Nat.eqb_eq in H1, H2. exists y; auto.
    + intros [_ [i [Hi [H1 H2]]]].
      assert (In i (filter target (identities db))).
      { apply filter_In; split; [exact Hi|]. unfold target; rewrite H1, H2, !Nat.eqb_refl; reflexivity. }
      destruct (filter target (identities db)); [contradiction | simpl; lia].
  - intros H. apply Nat.ltb_ge in H.
    assert (H0 : length (filter target (identities db)) = 0%nat) by lia.
    pose proof (filter_none_keeps target _ H0) as E. unfold target in E, H0 |- *.
    unfold set_identities. rewrite E. destruct db; reflexivity.
Qed.

Section IdentityProps.

Variable hash_password : string -> string.

(** Linking an identity either refuses (409 for a provider the caller
    already has, for a taken local username or Dispatcharr account; 400
    for a missing password or an unsupported provider; 404, 401 or 503
    for Dispatcharr being off, rejecting or unreachable; an unexpected
    error raises) and leaves the store as it was, or appends one identity
    row with the given id for the caller and touches no session or reset
    token. *)
Theorem link_identity_effects provider username password cu on auth iid db :
  let out := link_identity hash_password provider username password cu on auth iid db in
  match fst out with
  | ROk i => identities (snd out) = identities db ++ [i] /\ i_user_id i = u_id cu /\ i_id i = iid /\
             sessions (snd out) = sessions db /\ reset_tokens (snd out) = reset_tokens db /\
             map u_id (users (snd out)) = map u_id (users db)
  | _ => snd out = db
  end.
Proof.
  cbv zeta. unfold link_identity.
  destruct (first _ (identities db)); [reflexivity|].
  destruct (String.eqb (lower_string provider) "local").
  - destruct (String.eqb password ""); [reflexivity|].
    destruct (first (local_identity_for username) (identities db)); [reflexivity|].
    simpl. repeat split; try reflexivity. apply map_update_first_same; reflexivity.
  - destruct (String.eqb (lower_string provider) "dispatcharr"); [|reflexivity].
    destruct (negb on); [reflexivity|].
    destruct auth as [ext uname| | |]; try reflexivity.
    destruct (first (dispatcharr_identity_for ext) (identities db)); [reflexivity|].
    simpl. repeat split; reflexivity.
Qed.

(** Linking keeps the identity table well keyed: if each user has at
    most one identity per provider, each local username belongs to one
    identity and each Dispatcharr account to one identity, the same holds
    after any link request. *)
Theorem link_identity_keeps_well_keyed provider username password cu on auth iid db :
  identities_well_keyed db ->
  identities_well_keyed (snd (link_identity hash_password provider username password cu on auth iid db)).
Proof.
  intros [H1 [H2 H3]]. unfold link_identity.
  destruct (first (fun i => Nat.eqb (i_user_id i) (u_id cu) && String.eqb (i_provider i) (lower_string provider))
              (identities db)) eqn:Eprov; [split; auto|].
  unfold first in Eprov.
  assert (Hnew : forall pr, lower_string provider = pr ->
            ~ In (u_id cu, pr) (map identity_user_provider (identities db))).
  { intros pr Hpr. apply (find_none_not_in_map _ _ _ _ Eprov).
    intros x Hx. unfold identity_user_provider in Hx. injection Hx as E1 E2.
    rewrite E1, E2, Hpr, Nat.eqb_refl, String.eqb_refl. reflexivity. }
  destruct (String.eqb (lower_string provider) "local") eqn:El.
  - apply String.eqb_eq in El.
    destruct (String.eqb password ""); [split; auto|].
    destruct (first (local_identity_for username) (identities db)) eqn:Eu; [split; auto|].
    unfold first in Eu. unfold identities_well_keyed, local_identifiers, dispatcharr_external_ids; simpl.
    rewrite map_app, filter_app, flat_map_app. simpl. rewrite map_app, app_nil_r. simpl.
    split; [|split; [|exact H3]].
    + apply nodup_snoc; [exact H1 | exact (Hnew "local" El)].
    + apply nodup_snoc; [exact H2|]. intros Hin.
      apply in_map_iff in Hin as [x [Hx Hin]]. apply filter_In in Hin as [Hin Hp].
      pose proof (find_none _ _ Eu x Hin) as E. unfold local_identity_for in E.
      rewrite Hp, Hx, String.eqb_refl in E. discriminate.
  - destruct (String.eqb (lower_string provider) "dispatcharr") eqn:Ed; [|split; auto].
    apply String.eqb_eq in Ed.
    destruct (negb on); [split; auto|].
    destruct auth as [ext uname| | |]; try solve [split; auto].
    destruct (first (dispatcharr_identity_for ext) (identities db)) eqn:Ex; [split; auto|].
    unfold first in Ex. unfold identities_well_keyed, local_identifiers, dispatcharr_external_ids; simpl.
    rewrite map_app, filter_app, flat_map_app. simpl. rewrite app_nil_r.
    split; [|split; [exact H2|]].
    + apply nodup_snoc; [exact H1 | exact (Hnew "dispatcharr" Ed)].
    + apply nodup_snoc; [exact H3|]. intros Hin.
      apply in_flat_map in Hin as [x [Hin Hx]].
      pose proof (find_none _ _ Ex x Hin) as E. unfold dispatcharr_identity_for in E.
      destruct (String.eqb (i_provider x) "dispatcharr"); [|contradiction].
      destruct (i_external_id x) as [e|]; [|contradiction].
      destruct Hx as [<-|[]]. rewrite String.eqb_refl in E. discriminate.
Qed.

End IdentityProps.

Lemma link_identity_keeps_well_keyed_witness :
  let cu := mkUser 1 "admin" None (Some "h") true "local" None None in
  let db := mkDB [cu] [mkIdentity 1 1 "local" None "admin" None] [] [] in
  identities_well_keyed
    (snd (link_identity (fun p => p) "Dispatcharr" "" "" cu true (DAuthOk "42" "admin") 2 db)).
Proof.
  intros cu db. apply link_identity_keeps_well_keyed.
  unfold identities_well_keyed, local_identifiers, dispatcharr_external_ids; simpl.
  split; [repeat constructor; simpl; tauto|]. split; repeat constructor; simpl; tauto.
Defined.
